(** * clickhouse-js: the HTTP adapter and the client facade

    A shallow embedding of
    - [src/connection/adapter/base_http_adapter.ts] (the request transport
      and the connection operations built on it), and
    - [packages/client-common/src/client.ts] (the client facade: statement
      normalisation, INSERT statement building, settings merging),
    with the properties the specification states about them. *)

From Stdlib Require Import String Ascii ZArith Lia.
From stdpp Require Import base option list gmap strings.

Local Open Scope string_scope.

(** ** JavaScript strings

    A JS string is a sequence of UTF-16 code units.  The code only inspects
    [';'] and white space, so strings are modelled as Rocq [string]s: one
    [ascii] per code unit, code units restricted to 0..255. *)
Module JsString.

Definition LF : string := String "010"%char EmptyString.

(** ECMAScript WhiteSpace and LineTerminator code units below 256:
    TAB, LF, VT, FF, CR, SP and NBSP. *)
Definition isWhiteSpace (c : ascii) : bool :=
  let n := nat_of_ascii c in
  ((9 <=? n)%nat && (n <=? 13)%nat) || (n =? 32)%nat || (n =? 160)%nat.

(** [String.prototype.trimStart] *)
Fixpoint trimStart (s : string) : string :=
  match s with
  | EmptyString => EmptyString
  | String c r => if isWhiteSpace c then trimStart r else s
  end.

(** [String.prototype.trimEnd] *)
Fixpoint trimEnd (s : string) : string :=
  match s with
  | EmptyString => EmptyString
  | String c r =>
      match trimEnd r with
      | EmptyString => if isWhiteSpace c then EmptyString else String c EmptyString
      | r' => String c r'
      end
  end.

(** [String.prototype.trim] *)
Definition trim (s : string) : string := trimEnd (trimStart s).

(** [s[i] === c]; out of range [s[i]] is [undefined]. *)
Definition charAtIs (s : string) (i : nat) (c : ascii) : bool :=
  match get i s with
  | Some d => Ascii.eqb d c
  | None => false
  end.

(** [s.slice(0, n)] for [0 <= n]. *)
Definition slice0 (n : nat) (s : string) : string := substring 0 n s.

(** [Array.prototype.join] on an array of strings. *)
Fixpoint join (sep : string) (l : list string) : string :=
  match l with
  | [] => ""
  | [x] => x
  | x :: r => x +:+ sep +:+ join sep r
  end.

(** [n] copies of the statement separator. *)
Fixpoint semis (n : nat) : string :=
  match n with
  | 0 => ""
  | S k => String ";" (semis k)
  end.

(** The last code unit, [None] for the empty string. *)
Fixpoint last (s : string) : option ascii :=
  match s with
  | EmptyString => None
  | String c EmptyString => Some c
  | String _ r => last r
  end.

(** [s] ends with [suf] ([String.prototype.endsWith] as a proposition). *)
Definition endsWith (s suf : string) : Prop := exists pre, s = pre +:+ suf.

End JsString.
Import JsString.

(** ** Statement normalisation ([client.ts]) *)

(** The loop of [removeTrailingSemi]: [i] runs from [query.length] down to 1
    and stops at the first [i] with [query[i - 1] !== ';'], which becomes
    [lastNonSemiIdx]; when the loop runs out, [lastNonSemiIdx] keeps its
    initial value. *)
Fixpoint scanTrailingSemi (query : string) (i lastNonSemiIdx : nat) : nat :=
  match i with
  | 0 => lastNonSemiIdx
  | S j =>
      if negb (charAtIs query j ";")
      then i
      else scanTrailingSemi query j lastNonSemiIdx
  end.

Definition removeTrailingSemi (query : string) : string :=
  let lastNonSemiIdx :=
    scanTrailingSemi query (String.length query) (String.length query) in
  if negb (lastNonSemiIdx =? String.length query)%nat
  then slice0 lastNonSemiIdx query
  else query.

Definition formatQuery (query : string) (format : string) : string :=
  let query := trim query in
  let query := removeTrailingSemi query in
  query +:+ " " +:+ LF +:+ "FORMAT " +:+ format.

(** ** The INSERT statement ([client.ts]) *)

(** [InsertParams.columns]: an array of column names, or an object with an
    [except] array.  The declared element type is [NonEmptyArray<string>];
    at run time either array may be empty. *)
Inductive InsertColumns :=
| Columns (names : list string)
| ColumnsExcept (except : list string).

(** [getInsertQuery]: the first branch is taken by a non-empty array, the
    second by an object with an own, non-empty [except] property (an array
    has none). *)
Definition getInsertQuery (table : string) (columns : option InsertColumns)
    (format : string) : string :=
  let columnsPart :=
    match columns with
    | None => ""
    | Some (Columns names) =>
        if (0 <? List.length names)%nat
        then " (" +:+ join ", " names +:+ ")"
        else ""
    | Some (ColumnsExcept except) =>
        if (0 <? List.length except)%nat
        then " (* EXCEPT (" +:+ join ", " except +:+ "))"
        else ""
    end in
  "INSERT INTO " +:+ trim table +:+ columnsPart +:+ " FORMAT " +:+ format.

(** ** Promises

    A promise is pending or settled; [resolve] and [reject] act on a pending
    promise only (ECMAScript: the resolving functions of a settled promise
    do nothing). *)
Inductive promise (A E : Type) : Type :=
| Pending
| Fulfilled (value : A)
| Rejected (reason : E).
Arguments Pending {A E}.
Arguments Fulfilled {A E} value.
Arguments Rejected {A E} reason.

Definition settleWith {A E} (o p : promise A E) : promise A E :=
  match p with
  | Pending => o
  | _ => p
  end.

Definition isSettled {A E} (p : promise A E) : bool :=
  match p with Pending => false | _ => true end.

(** ** The request transport ([base_http_adapter.ts]) *)

(** Error values: [new Error(message)] (also the errors Node emits) and the
    result of [parseError(text)], whose module is outside this file. *)
Inductive error :=
| Error (message : string)
| ParsedError (text : string).

(** [Http.IncomingMessage]: the fields the adapter reads. *)
Record IncomingMessage := {
  statusCode : option Z;
  content_encoding : option string; (* headers['content-encoding'] *)
  payload : nat                     (* identity of the body stream *)
}.

(** [Stream.Readable] values the adapter handles. *)
Inductive readable :=
| Body (response : IncomingMessage)
| Gunzip (source : readable)  (* Stream.pipeline(source, Zlib.createGunzip(), cb) *)
| Source (id : nat).          (* a stream supplied by the caller *)

Inductive method := GET | POST.

(** [ClickHouseSettings] values. *)
Inductive SettingValue :=
| SNum (n : Z)
| SStr (s : string)
| SBool (b : bool).

#[global] Instance SettingValue_eq_dec : EqDecision SettingValue.
Proof. solve_decision. Defined.

(** The argument of [toSearchParams]; [transformUrl] and [toSearchParams]
    are outside this file, so a URL is kept as the data it is built from. *)
Record SearchParams := {
  sp_database : string;
  sp_clickhouse_settings : option (gmap string SettingValue);
  sp_query_params : option (gmap string string);
  sp_query : option string;
  sp_session_id : option string;
  sp_query_id : string
}.

Record URL := {
  pathname : string;
  searchParams : option SearchParams
}.

Definition AbortSignal := nat.

Record RequestParams := {
  rq_method : method;
  rq_url : URL;
  rq_body : option (string + readable);
  rq_abort_signal : option AbortSignal;
  rq_decompress_response : option bool;
  rq_compress_request : option bool
}.

Record Compression := {
  cfg_decompress_response : bool;
  cfg_compress_request : bool
}.

(** [ConnectionParams]: the fields the adapter reads. *)
Record ConnectionParams := {
  cfg_url : string;
  cfg_request_timeout : Z;
  cfg_compression : Compression;
  cfg_database : string
}.

Definition isSuccessfulResponse (statusCode : option Z) : bool :=
  match statusCode with
  | Some c => negb (c =? 0)%Z && (200 <=? c)%Z && (c <? 300)%Z
  | None => false
  end.

Definition withHttpSettings (clickhouse_settings : option (gmap string SettingValue))
    (compression : bool) : gmap string SettingValue :=
  default ∅ clickhouse_settings
  ∪ (if compression then {[ "enable_http_compression" := SNum 1 ]} else ∅).

Definition decompressResponse (response : IncomingMessage) : readable + error :=
  match content_encoding response with
  | Some encoding =>
      if String.eqb encoding "gzip"
      then inl (Gunzip (Body response))
      else inr (Error ("Unexpected encoding: " +:+ encoding))
  | None => inl (Body response)
  end.

(** [!params.body]: no body, or the empty string. *)
Definition noBody (body : option (string + readable)) : bool :=
  match body with
  | None => true
  | Some (inl text) => String.eqb text ""
  | Some (inr _) => false
  end.

(** *** One exchange as a state machine

    [request] creates a promise and a client request, registers its
    handlers and returns; everything else happens in the handlers, run by
    the event loop one event at a time.  The state below is what the
    handlers close over and what the emitters hold. *)

(** Which handlers are attached. *)
Record listeners := {
  on_socket : bool;    (* request 'socket'   -> onSocket *)
  on_response : bool;  (* request 'response' -> onResponse *)
  on_error : bool;     (* request 'error'    -> onError *)
  on_close : bool;     (* request 'close'    -> onClose *)
  on_timeout : bool;   (* socket 'timeout'   -> onTimeout, timer armed *)
  on_abort : bool;     (* abort_signal 'abort' -> onAbort, once *)
  error_sinks : nat    (* request.once('error', function () {}) *)
}.

Record exchange := {
  outcome : promise readable error;            (* the promise returned by request *)
  settlements : list (promise readable error); (* every resolve/reject call, in order *)
  socket : bool;                               (* request.socket !== null *)
  handlers : listeners;
  reading : list readable;  (* onResponse calls suspended at await getAsText(..) *)
  piping : bool;            (* the Stream.pipeline callback can still be called *)
  destroyed : bool;         (* request.destroy() was called *)
  uncaught : list error     (* 'error' events emitted with no listener *)
}.

(** The events the runtime delivers to one exchange. *)
Inductive event :=
| EvSocket                              (* request 'socket' *)
| EvResponse (response : IncomingMessage) (* request 'response' *)
| EvBody (text : option string)         (* getAsText settled: the text, or a failed read *)
| EvError (err : error)                 (* request 'error' *)
| EvAbort                               (* abort_signal 'abort' *)
| EvTimeout                             (* socket 'timeout' *)
| EvClose                               (* request 'close' *)
| EvPipeline (err : option error).      (* the Stream.pipeline callback *)

Definition withHandlers (h : listeners) (x : exchange) : exchange :=
  {| outcome := outcome x; settlements := settlements x; socket := socket x;
     handlers := h; reading := reading x; piping := piping x;
     destroyed := destroyed x; uncaught := uncaught x |}.

(** A call of [resolve] or [reject]. *)
Definition settle (o : promise readable error) (x : exchange) : exchange :=
  {| outcome := settleWith o (outcome x); settlements := settlements x ++ [o];
     socket := socket x; handlers := handlers x; reading := reading x;
     piping := piping x; destroyed := destroyed x; uncaught := uncaught x |}.

Definition resolve (stream : readable) : exchange -> exchange :=
  settle (Fulfilled stream).

Definition reject (err : error) : exchange -> exchange :=
  settle (Rejected err).

(** [removeRequestListeners].  The socket's timeout is reset only when the
    request has a socket.  [request.removeListener('abort', onAbort)] names
    the request, while [onAbort] was added to the abort signal: the signal
    keeps it until it fires. *)
Definition removeRequestListeners (x : exchange) : exchange :=
  let h := handlers x in
  withHandlers
    {| on_socket := false; on_response := false; on_error := false;
       on_close := false;
       on_timeout := if socket x then false else on_timeout h;
       on_abort := on_abort h;
       error_sinks := error_sinks h |} x.

Definition onError (err : error) (x : exchange) : exchange :=
  reject err (removeRequestListeners x).

(** [onResponse] up to its first suspension point. *)
Definition onResponse (response : IncomingMessage) (x : exchange) : exchange :=
  match decompressResponse response with
  | inr err => reject err x
  | inl stream =>
      if isSuccessfulResponse (statusCode response)
      then resolve stream x
      else
        {| outcome := outcome x; settlements := settlements x;
           socket := socket x; handlers := handlers x;
           reading := reading x ++ [stream]; piping := piping x;
           destroyed := destroyed x; uncaught := uncaught x |}
  end.

(** [onResponse] resumed: [reject(parseError(text))], or nothing when the
    read failed (the rejection of the async handler has no observer). *)
Definition onBody (text : option string) (x : exchange) : exchange :=
  match reading x with
  | [] => x
  | _ :: rest =>
      let x' :=
        {| outcome := outcome x; settlements := settlements x;
           socket := socket x; handlers := handlers x; reading := rest;
           piping := piping x; destroyed := destroyed x;
           uncaught := uncaught x |} in
      match text with
      | Some t => reject (ParsedError t) x'
      | None => x'
      end
  end.

Definition onAbort (x : exchange) : exchange :=
  let x := removeRequestListeners x in
  let h := handlers x in
  let x :=
    withHandlers
      {| on_socket := on_socket h; on_response := on_response h;
         on_error := on_error h; on_close := on_close h;
         on_timeout := on_timeout h; on_abort := on_abort h;
         error_sinks := S (error_sinks h) |} x in
  reject (Error "The request was aborted.") x.

Definition onClose (x : exchange) : exchange := removeRequestListeners x.

(** [onSocket]: [socket.setTimeout(msecs, onTimeout)] arms the timer and
    adds the listener for a positive [msecs], clears the timer and removes
    the listener for 0, and for a negative [msecs] throws a [RangeError]
    before it touches the timer or the listeners. *)
Definition onSocket (config : ConnectionParams) (x : exchange) : exchange :=
  let h := handlers x in
  withHandlers
    {| on_socket := on_socket h; on_response := on_response h;
       on_error := on_error h; on_close := on_close h;
       on_timeout :=
         if (cfg_request_timeout config <? 0)%Z
         then on_timeout h
         else negb (cfg_request_timeout config =? 0)%Z;
       on_abort := on_abort h; error_sinks := error_sinks h |} x.

Definition onTimeout (x : exchange) : exchange :=
  let x := removeRequestListeners x in
  let x :=
    {| outcome := outcome x; settlements := settlements x; socket := socket x;
       handlers := handlers x; reading := reading x; piping := piping x;
       destroyed := true; uncaught := uncaught x |} in
  reject (Error "Timeout error") x.

(** The callback given to [Stream.pipeline]; it is called once. *)
Definition pipelineCallback (err : option error) (x : exchange) : exchange :=
  let x :=
    {| outcome := outcome x; settlements := settlements x; socket := socket x;
       handlers := handlers x; reading := reading x; piping := false;
       destroyed := destroyed x; uncaught := uncaught x |} in
  match err with
  | Some e => reject e (removeRequestListeners x)
  | None => x
  end.

(** [request.emit('socket', socket)]: the request has its socket by then. *)
Definition emitSocket (config : ConnectionParams) (x : exchange) : exchange :=
  let x :=
    {| outcome := outcome x; settlements := settlements x; socket := true;
       handlers := handlers x; reading := reading x; piping := piping x;
       destroyed := destroyed x; uncaught := uncaught x |} in
  if on_socket (handlers x) then onSocket config x else x.

(** [request.emit('error', err)]: every listener runs, the once-listeners
    are removed; with no listener at all the error is thrown. *)
Definition emitError (err : error) (x : exchange) : exchange :=
  let h := handlers x in
  if on_error h || (0 <? error_sinks h)%nat then
    let x := if on_error h then onError err x else x in
    let h := handlers x in
    withHandlers
      {| on_socket := on_socket h; on_response := on_response h;
         on_error := on_error h; on_close := on_close h;
         on_timeout := on_timeout h; on_abort := on_abort h;
         error_sinks := 0 |} x
  else
    {| outcome := outcome x; settlements := settlements x; socket := socket x;
       handlers := handlers x; reading := reading x; piping := piping x;
       destroyed := destroyed x; uncaught := uncaught x ++ [err] |}.

(** The abort listener was added with [once: true]. *)
Definition emitAbort (x : exchange) : exchange :=
  let h := handlers x in
  if on_abort h then
    onAbort
      (withHandlers
         {| on_socket := on_socket h; on_response := on_response h;
            on_error := on_error h; on_close := on_close h;
            on_timeout := on_timeout h; on_abort := false;
            error_sinks := error_sinks h |} x)
  else x.

Definition dispatch (config : ConnectionParams) (x : exchange) (ev : event)
    : exchange :=
  match ev with
  | EvSocket => emitSocket config x
  | EvResponse r => if on_response (handlers x) then onResponse r x else x
  | EvBody text => onBody text x
  | EvError err => emitError err x
  | EvAbort => emitAbort x
  | EvTimeout => if on_timeout (handlers x) then onTimeout x else x
  | EvClose => if on_close (handlers x) then onClose x else x
  | EvPipeline err => if piping x then pipelineCallback err x else x
  end.

(** The event is a request ['error']. *)
Definition isErrorEvent (ev : event) : bool :=
  match ev with
  | EvError _ => true
  | _ => false
  end.

(** The state [request] leaves behind when it returns its promise. *)
Definition start (params : RequestParams) : exchange :=
  {| outcome := Pending;
     settlements := [];
     socket := false;
     handlers :=
       {| on_socket := true; on_response := true; on_error := true;
          on_close := true; on_timeout := false;
          on_abort := bool_decide (is_Some (rq_abort_signal params));
          error_sinks := 0 |};
     reading := [];
     piping := negb (noBody (rq_body params));
     destroyed := false;
     uncaught := [] |}.

Definition run (config : ConnectionParams) (x : exchange) (trace : list event)
    : exchange :=
  fold_left (dispatch config) trace x.



(** ** The connection ([BaseHttpAdapter])

    The world an adapter acts in: the events the runtime will deliver to
    each of its exchanges, the values [uuid.v4()] will return, and a record
    of what was sent and destroyed. *)
Record world := {
  network : list (list event);
  uuids : nat -> string;
  uuid_calls : nat;
  sent : list RequestParams;
  destroyedStreams : list readable
}.

(** An async function: it runs in a world and returns a promise. *)
Definition async (W A : Type) : Type := W -> promise A error * W.

Definition ret {W A} (a : A) : async W A := fun w => (Fulfilled a, w).

(** [const a = await m; k a] *)
Definition await {W A B} (m : async W A) (k : A -> async W B) : async W B :=
  fun w =>
    match m w with
    | (Fulfilled a, w') => k a w'
    | (Rejected e, w') => (Rejected e, w')
    | (Pending, w') => (Pending, w')
    end.

Notation "'let!' x ':=' m 'in' k" := (await m (fun x => k))
  (at level 10, x name, m at level 100, k at level 200).

(** [this.request(params)] with the whole exchange played out. *)
Definition request (config : ConnectionParams) (params : RequestParams)
    : async world readable :=
  fun w =>
    let trace := hd [] (network w) in
    (outcome (run config (start params) trace),
     {| network := tl (network w); uuids := uuids w;
        uuid_calls := uuid_calls w; sent := sent w ++ [params];
        destroyedStreams := destroyedStreams w |}).

(** [stream.destroy()] *)
Definition destroy (stream : readable) : async world unit :=
  fun w =>
    (Fulfilled tt,
     {| network := network w; uuids := uuids w; uuid_calls := uuid_calls w;
        sent := sent w; destroyedStreams := destroyedStreams w ++ [stream] |}).

(** [uuid.v4()] *)
Definition uuid_v4 : async world string :=
  fun w =>
    (Fulfilled (uuids w (uuid_calls w)),
     {| network := network w; uuids := uuids w;
        uuid_calls := S (uuid_calls w); sent := sent w;
        destroyedStreams := destroyedStreams w |}).

(** The parameters of a connection call ([BaseParams] with the statement). *)
Record ConnParams := {
  cp_query : string;
  cp_clickhouse_settings : option (gmap string SettingValue);
  cp_query_params : option (gmap string string);
  cp_abort_signal : option AbortSignal;
  cp_query_id : option string;
  cp_session_id : option string
}.

Definition ClickHouseSummary := gmap string string.

Record ConnQueryResult (Stream : Type) := {
  qr_stream : Stream;
  qr_query_id : string
}.
Arguments qr_stream {Stream} _.
Arguments qr_query_id {Stream} _.

Record ConnExecResult (Stream : Type) := {
  er_stream : Stream;
  er_query_id : string;
  er_summary : option ClickHouseSummary
}.
Arguments er_stream {Stream} _.
Arguments er_query_id {Stream} _.
Arguments er_summary {Stream} _.

Record ConnInsertResult := {
  ir_query_id : string;
  ir_summary : option ClickHouseSummary
}.

(** The [Connection] interface the client is written against. *)
Record Connection (W Stream PingResult : Type) := {
  conn_query : ConnParams -> async W (ConnQueryResult Stream);
  conn_exec : ConnParams -> async W (ConnExecResult Stream);
  conn_insert : string + Stream -> ConnParams -> async W ConnInsertResult;
  conn_ping : async W PingResult
}.
Arguments conn_query {W Stream PingResult} _.
Arguments conn_exec {W Stream PingResult} _.
Arguments conn_insert {W Stream PingResult} _.
Arguments conn_ping {W Stream PingResult} _.

Module BaseHttpAdapter.

(** [params.query_id || uuid.v4()] *)
Definition getQueryId (params : ConnParams) : async world string :=
  match cp_query_id params with
  | Some id => if String.eqb id "" then uuid_v4 else ret id
  | None => uuid_v4
  end.

(** The argument of [this.request] in [ping]. *)
Definition pingRequest : RequestParams :=
  {| rq_method := GET;
     rq_url := {| pathname := "/ping"; searchParams := None |};
     rq_body := None; rq_abort_signal := None;
     rq_decompress_response := None; rq_compress_request := None |}.

Definition ping (config : ConnectionParams) : async world bool :=
  let! stream := request config pingRequest in
  let! _ := destroy stream in
  ret true.

Definition query (config : ConnectionParams) (params : ConnParams)
    : async world (ConnQueryResult readable) :=
  let! query_id := getQueryId params in
  let clickhouse_settings :=
    withHttpSettings (cp_clickhouse_settings params)
      (cfg_decompress_response (cfg_compression config)) in
  let searchParams :=
    {| sp_database := cfg_database config;
       sp_clickhouse_settings := Some clickhouse_settings;
       sp_query_params := cp_query_params params;
       sp_query := None;
       sp_session_id := cp_session_id params;
       sp_query_id := query_id |} in
  let! stream :=
    request config
      {| rq_method := POST;
         rq_url := {| pathname := "/"; searchParams := Some searchParams |};
         rq_body := Some (inl (cp_query params));
         rq_abort_signal := cp_abort_signal params;
         rq_decompress_response :=
           Some (bool_decide
                   (clickhouse_settings !! "enable_http_compression"
                    = Some (SNum 1)));
         rq_compress_request := None |} in
  ret {| qr_stream := stream; qr_query_id := query_id |}.

Definition exec (config : ConnectionParams) (params : ConnParams)
    : async world (ConnExecResult readable) :=
  let! query_id := getQueryId params in
  let searchParams :=
    {| sp_database := cfg_database config;
       sp_clickhouse_settings := cp_clickhouse_settings params;
       sp_query_params := cp_query_params params;
       sp_query := None;
       sp_session_id := cp_session_id params;
       sp_query_id := query_id |} in
  let! stream :=
    request config
      {| rq_method := POST;
         rq_url := {| pathname := "/"; searchParams := Some searchParams |};
         rq_body := Some (inl (cp_query params));
         rq_abort_signal := cp_abort_signal params;
         rq_decompress_response := None;
         rq_compress_request := None |} in
  ret {| er_stream := stream; er_query_id := query_id; er_summary := None |}.

Definition insert (config : ConnectionParams) (values : string + readable)
    (params : ConnParams) : async world ConnInsertResult :=
  let! query_id := getQueryId params in
  let searchParams :=
    {| sp_database := cfg_database config;
       sp_clickhouse_settings := cp_clickhouse_settings params;
       sp_query_params := cp_query_params params;
       sp_query := Some (cp_query params);
       sp_session_id := cp_session_id params;
       sp_query_id := query_id |} in
  let! stream :=
    request config
      {| rq_method := POST;
         rq_url := {| pathname := "/"; searchParams := Some searchParams |};
         rq_body := Some values;
         rq_abort_signal := cp_abort_signal params;
         rq_decompress_response := None;
         rq_compress_request :=
           Some (cfg_compress_request (cfg_compression config)) |} in
  let! _ := destroy stream in
  ret {| ir_query_id := query_id; ir_summary := None |}.

(** The adapter as a [Connection]. *)
Definition connection (config : ConnectionParams)
    : Connection world readable bool :=
  {| conn_query := query config;
     conn_exec := exec config;
     conn_insert := insert config;
     conn_ping := ping config |}.

End BaseHttpAdapter.

(** ** The client facade ([ClickHouseClient]) *)

(** [BaseQueryParams] *)
Record BaseQueryParams := {
  clickhouse_settings : option (gmap string SettingValue);
  query_params : option (gmap string string);
  abort_signal : option AbortSignal;
  query_id : option string;
  session_id : option string
}.

(** [QueryParams] *)
Record QueryParams := {
  q_query : string;
  q_format : option string;
  q_base : BaseQueryParams
}.

(** [ExecParams] and [CommandParams] *)
Record ExecParams := {
  e_query : string;
  e_base : BaseQueryParams
}.

(** [InsertValues<Stream, T>] *)
Inductive InsertValues (Stream T : Type) :=
| ValuesArray (rows : list T)
| ValuesStream (stream : Stream)
| ValuesInputJSON (meta : list (string * string)) (data : list T)
| ValuesObjectEachRow (rows : gmap string T).
Arguments ValuesArray {Stream T} rows.
Arguments ValuesStream {Stream T} stream.
Arguments ValuesInputJSON {Stream T} meta data.
Arguments ValuesObjectEachRow {Stream T} rows.

(** [InsertParams<Stream, T>] *)
Record InsertParams (Stream T : Type) := {
  i_table : string;
  i_values : InsertValues Stream T;
  i_format : option string;
  i_columns : option InsertColumns;
  i_base : BaseQueryParams
}.
Arguments i_table {Stream T} _.
Arguments i_values {Stream T} _.
Arguments i_format {Stream T} _.
Arguments i_columns {Stream T} _.
Arguments i_base {Stream T} _.

Record InsertResult := {
  executed : bool;
  ins_query_id : string;
  ins_summary : option ClickHouseSummary
}.

Record CommandResult := {
  cmd_query_id : string;
  cmd_summary : option ClickHouseSummary
}.

(** [ValuesEncoder<Stream>]; [validateInsertValues] returns the error it
    throws, if any. *)
Record ValuesEncoder (Stream T : Type) := {
  validateInsertValues : InsertValues Stream T -> string -> option error;
  encodeValues : InsertValues Stream T -> string -> string + Stream
}.
Arguments validateInsertValues {Stream T} _.
Arguments encodeValues {Stream T} _.

Record ClickHouseClient (W Stream T PingResult ResultSet : Type) := {
  clientClickHouseSettings : gmap string SettingValue;
  connection : Connection W Stream PingResult;
  makeResultSet : Stream -> string -> string -> ResultSet;
  valuesEncoder : ValuesEncoder Stream T;
  closeStream : Stream -> async W unit;
  sessionId : option string
}.
Arguments clientClickHouseSettings {W Stream T PingResult ResultSet} _.
Arguments connection {W Stream T PingResult ResultSet} _.
Arguments makeResultSet {W Stream T PingResult ResultSet} _.
Arguments valuesEncoder {W Stream T PingResult ResultSet} _.
Arguments closeStream {W Stream T PingResult ResultSet} _.
Arguments sessionId {W Stream T PingResult ResultSet} _.

Module Client.
Section Methods.
Context {W Stream T PingResult ResultSet : Type}.
Variable this : ClickHouseClient W Stream T PingResult ResultSet.

(** [{ query, ...this.withClientQueryParams(params) }]; in the settings the
    later spread wins key by key. *)
Definition withClientQueryParams (query : string) (params : BaseQueryParams)
    : ConnParams :=
  {| cp_query := query;
     cp_clickhouse_settings :=
       Some (default ∅ (clickhouse_settings params)
             ∪ clientClickHouseSettings this);
     cp_query_params := query_params params;
     cp_abort_signal := abort_signal params;
     cp_query_id := query_id params;
     cp_session_id := sessionId this |}.

Definition query (params : QueryParams) : async W ResultSet :=
  let format := default "JSON" (q_format params) in
  let query := formatQuery (q_query params) format in
  let! r :=
    conn_query (connection this)
      (withClientQueryParams query (q_base params)) in
  ret (makeResultSet this (qr_stream r) format (qr_query_id r)).

Definition exec (params : ExecParams) : async W (ConnExecResult Stream) :=
  let query := removeTrailingSemi (trim (e_query params)) in
  conn_exec (connection this) (withClientQueryParams query (e_base params)).

Definition command (params : ExecParams) : async W CommandResult :=
  let! r := exec params in
  let! _ := closeStream this (er_stream r) in
  ret {| cmd_query_id := er_query_id r; cmd_summary := er_summary r |}.

(** [Array.isArray(values) && values.length === 0] *)
Definition isEmptyArray (values : InsertValues Stream T) : bool :=
  match values with
  | ValuesArray rows => (List.length rows =? 0)%nat
  | _ => false
  end.

Definition insert (params : InsertParams Stream T) : async W InsertResult :=
  if isEmptyArray (i_values params) then
    ret {| executed := false; ins_query_id := ""; ins_summary := None |}
  else
    let format :=
      match i_format params with
      | Some f => if String.eqb f "" then "JSONCompactEachRow" else f
      | None => "JSONCompactEachRow"
      end in
    match validateInsertValues (valuesEncoder this) (i_values params) format with
    | Some err => fun w => (Rejected err, w)
    | None =>
        let query :=
          getInsertQuery (i_table params) (i_columns params) format in
        let! result :=
          conn_insert (connection this)
            (encodeValues (valuesEncoder this) (i_values params) format)
            (withClientQueryParams query (i_base params)) in
        ret {| executed := true; ins_query_id := ir_query_id result;
               ins_summary := ir_summary result |}
    end.

Definition ping : async W PingResult :=
  let! r := conn_ping (connection this) in
  ret r.

End Methods.
End Client.

(** A connection that records every call made through it before passing it
    on: the log is what went over the [Connection] interface. *)
Inductive ConnCall (Stream : Type) :=
| CallQuery (params : ConnParams)
| CallExec (params : ConnParams)
| CallInsert (values : string + Stream) (params : ConnParams)
| CallPing.
Arguments CallQuery {Stream} params.
Arguments CallExec {Stream} params.
Arguments CallInsert {Stream} values params.
Arguments CallPing {Stream}.

Definition logged {W Stream A} (call : ConnCall Stream) (m : async W A)
    : async (list (ConnCall Stream) * W) A :=
  fun lw =>
    let '(r, w') := m (snd lw) in
    (r, ((fst lw ++ [call])%list, w')).

Definition recording {W Stream PingResult}
    (conn : Connection W Stream PingResult)
    : Connection (list (ConnCall Stream) * W) Stream PingResult :=
  {| conn_query := fun p => logged (CallQuery p) (conn_query conn p);
     conn_exec := fun p => logged (CallExec p) (conn_exec conn p);
     conn_insert := fun v p => logged (CallInsert v p) (conn_insert conn v p);
     conn_ping := logged CallPing (conn_ping conn) |}.


(** The same client with every connection call recorded. *)
Definition traced {W Stream T PingResult ResultSet}
    (this : ClickHouseClient W Stream T PingResult ResultSet)
    : ClickHouseClient (list (ConnCall Stream) * W) Stream T PingResult ResultSet :=
  {| clientClickHouseSettings := clientClickHouseSettings this;
     connection := recording (connection this);
     makeResultSet := makeResultSet this;
     valuesEncoder := valuesEncoder this;
     closeStream := fun s lw =>
       let '(r, w') := closeStream this s (snd lw) in (r, (fst lw, w'));
     sessionId := sessionId this |}.

(** [new ClickHouseClient(config)] where [config.impl.make_connection]
    builds the HTTP adapter; [settings] stands for
    [connectionParams.clickhouse_settings]. *)
Definition httpClient {T ResultSet} (config : ConnectionParams)
    (settings : gmap string SettingValue) (session_id : option string)
    (make_result_set : readable -> string -> string -> ResultSet)
    (values_encoder : ValuesEncoder readable T)
    (close_stream : readable -> async world unit)
    : ClickHouseClient world readable T bool ResultSet :=
  {| clientClickHouseSettings := settings;
     connection := BaseHttpAdapter.connection config;
     makeResultSet := make_result_set;
     valuesEncoder := values_encoder;
     closeStream := close_stream;
     sessionId := session_id |}.

(** Concrete values for the examples below. *)
Module Sample.

Definition config : ConnectionParams :=
  {| cfg_url := "http://localhost:8123";
     cfg_request_timeout := 30000;
     cfg_compression :=
       {| cfg_decompress_response := false; cfg_compress_request := false |};
     cfg_database := "default" |}.

(** A world in which the next exchanges see the given events and
    [uuid.v4()] returns one fixed identifier. *)
Definition world (traces : list (list event)) : world :=
  {| network := traces;
     uuids := fun _ => "6f1c1d0e-3b7a-4c58-9a52-0d6c6a1f2b11";
     uuid_calls := 0; sent := []; destroyedStreams := [] |}.

Definition ok (encoding : option string) : IncomingMessage :=
  {| statusCode := Some 200%Z; content_encoding := encoding; payload := 0 |}.

Definition params (id : option string) : ConnParams :=
  {| cp_query := "SELECT 1"; cp_clickhouse_settings := None;
     cp_query_params := None; cp_abort_signal := None;
     cp_query_id := id; cp_session_id := None |}.

Definition get (signal : option AbortSignal) (decompress : option bool)
    : RequestParams :=
  {| rq_method := GET;
     rq_url := {| pathname := "/"; searchParams := None |};
     rq_body := None; rq_abort_signal := signal;
     rq_decompress_response := decompress; rq_compress_request := None |}.

End Sample.

(** ** Request headers ([BaseHttpAdapter]) *)

(** [buildDefaultHeaders]; the base64 encoder of [Buffer] and
    [getUserAgent] are outside this file and are taken as arguments. *)
Definition buildDefaultHeaders (base64 : string -> string)
    (getUserAgent : option string -> string)
    (application_id : option string) (username password : string)
    : gmap string string :=
  {[ "Authorization" := "Basic " +:+ base64 (username +:+ ":" +:+ password);
     "User-Agent" := getUserAgent application_id ]}.

(** A flag of [RequestParams] used as a condition. *)
Definition truthy (flag : option bool) : bool := default false flag.

(** [getHeaders]: the later spread wins. *)
Definition getHeaders (headers : gmap string string) (params : RequestParams)
    : gmap string string :=
  (if truthy (rq_compress_request params)
   then {[ "Content-Encoding" := "gzip" ]} else ∅)
  ∪ ((if truthy (rq_decompress_response params)
      then {[ "Accept-Encoding" := "gzip" ]} else ∅)
     ∪ headers).

(** ** Event classes used in the properties of the transport *)

(** The event is a request ['close'] or ['error']. *)
Definition isCloseOrError (ev : event) : bool :=
  match ev with
  | EvClose | EvError _ => true
  | _ => false
  end.

Definition isAbortEvent (ev : event) : bool :=
  match ev with
  | EvAbort => true
  | _ => false
  end.





(** The quiet events and ['close']. *)
Definition isPassiveEvent (ev : event) : bool :=
  match ev with
  | EvSocket | EvPipeline None | EvClose => true
  | _ => false
  end.


(** The four listeners of the request are all attached, or all detached. *)
Definition requestListeners (x : exchange) : list bool :=
  [on_socket (handlers x); on_response (handlers x); on_error (handlers x);
   on_close (handlers x)].

(** What holds of every state an exchange can reach: the four listeners of
    the request go together, and an armed idle timeout means that the
    request has its socket and its listeners. *)
Definition wellFormed (x : exchange) : Prop :=
  requestListeners x = repeat (on_close (handlers x)) 4
  /\ (on_timeout (handlers x) = true ->
      socket x = true /\ on_close (handlers x) = true).


(** ** The table layer ([Table])

    [Table.insert] calls the client's [insert]; [getTableName] belongs to the
    query formatter, outside this file, and is taken as an argument. *)
Module Table.

Record TableOptions := {
  name : string;
  database : option string
}.

(** [InsertOptions]: [values] is an array or a stream. *)
Record InsertOptions (Stream T : Type) := {
  o_values : list T + Stream;
  o_clickhouse_settings : option (gmap string SettingValue);
  o_abort_signal : option AbortSignal
}.
Arguments o_values {Stream T} _.
Arguments o_clickhouse_settings {Stream T} _.
Arguments o_abort_signal {Stream T} _.

Definition insert {W Stream T PingResult ResultSet : Type}
    (getTableName : TableOptions -> string)
    (client : ClickHouseClient W Stream T PingResult ResultSet)
    (options : TableOptions) (o : InsertOptions Stream T)
    : async W InsertResult :=
  Client.insert client
    {| i_table := getTableName options;
       i_values :=
         match o_values o with
         | inl rows => ValuesArray rows
         | inr stream => ValuesStream stream
         end;
       i_format := Some "JSONEachRow";
       i_columns := None;
       i_base :=
         {| clickhouse_settings := o_clickhouse_settings o;
            query_params := None;
            abort_signal := o_abort_signal o;
            query_id := None;
            session_id := None |} |}.

(** A value produced by [row.json()]: an array of values, or anything
    else. *)
#[warnings="-register-all"]
Inductive JsValue :=
| JsArray (items : list JsValue)
| JsOther (id : nat).

(** The [json] function returned by [select], on the values its generator
    yields: [result.push(...value)] for an array, [result.push(value)]
    otherwise. *)
Definition json (yielded : list JsValue) : list JsValue :=
  fold_left
    (fun result value =>
       match value with
       | JsArray items => (result ++ items)%list
       | _ => (result ++ [value])%list
       end)
    yielded [].

End Table.

(** More concrete values for the examples. *)
Module Demo.

Definition encoder : ValuesEncoder readable nat :=
  {| validateInsertValues := fun _ _ => None;
     encodeValues := fun _ _ => inl "[1]" |}.

Definition client
    : ClickHouseClient world readable nat bool (readable * string * string) :=
  httpClient Sample.config ∅ None (fun s f id => (s, f, id)) encoder
    (fun s => destroy s).

Definition rows (values : InsertValues readable nat)
    : InsertParams readable nat :=
  {| i_table := "t"; i_values := values; i_format := None;
     i_columns := None;
     i_base :=
       {| clickhouse_settings := None; query_params := None;
          abort_signal := None; query_id := None; session_id := None |} |}.

Definition serverError : IncomingMessage :=
  {| statusCode := Some 500%Z; content_encoding := None; payload := 0 |}.

Definition base : BaseQueryParams :=
  {| clickhouse_settings := None; query_params := None;
     abort_signal := None; query_id := None; session_id := None |}.

(** A request with a body, as [query], [exec] and [insert] send it. *)
Definition post (signal : option AbortSignal) : RequestParams :=
  {| rq_method := POST;
     rq_url := {| pathname := "/"; searchParams := None |};
     rq_body := Some (inl "SELECT 1"); rq_abort_signal := signal;
     rq_decompress_response := None; rq_compress_request := None |}.

End Demo.

(** * Properties *)

(** ** Strings *)

Lemma length_append (s t : string) :
  String.length (s +:+ t) = (String.length s + String.length t)%nat.
Proof. induction s as [|c s IH]; simpl; [reflexivity | now rewrite IH]. Qed.

Lemma get_append_l (s t : string) (i : nat) :
  (i < String.length s)%nat -> get i (s +:+ t) = get i s.
Proof.
  revert i. induction s as [|c s IH]; simpl; intros i Hi; [lia|].
  destruct i as [|i]; [reflexivity|]. apply IH. lia.
Qed.

Lemma get_append_r (s t : string) (i : nat) :
  get (String.length s + i) (s +:+ t) = get i t.
Proof. induction s as [|c s IH]; simpl; [reflexivity | exact IH]. Qed.

Lemma get_semis (n i : nat) : (i < n)%nat -> get i (semis n) = Some ";"%char.
Proof.
  revert i. induction n as [|n IH]; intros i Hi; [lia|].
  destruct i as [|i]; simpl; [reflexivity|]. apply IH. lia.
Qed.

Lemma length_semis (n : nat) : String.length (semis n) = n.
Proof. induction n as [|n IH]; simpl; [reflexivity | now rewrite IH]. Qed.

Lemma get_last (s : string) (c : ascii) :
  last s = Some c -> get (String.length s - 1) s = Some c.
Proof.
  induction s as [|d s IH]; simpl; [discriminate|].
  destruct s as [|e s]; [intros H; exact H|].
  intros H. specialize (IH H). simpl in IH. simpl.
  rewrite Nat.sub_0_r in IH. exact IH.
Qed.

Lemma last_nonempty (s : string) (c : ascii) :
  last s = Some c -> (0 < String.length s)%nat.
Proof. destruct s; simpl; [discriminate | lia]. Qed.

Lemma slice0_append (s t : string) : slice0 (String.length s) (s +:+ t) = s.
Proof.
  unfold slice0. induction s as [|c s IH]; simpl.
  - destruct t; reflexivity.
  - now rewrite IH.
Qed.

(** The scan over a string of separators only never finds a stopping
    index and returns the initial value. *)
Lemma scan_semis (n i d : nat) :
  (i <= n)%nat -> scanTrailingSemi (semis n) i d = d.
Proof.
  induction i as [|i IH]; intros Hi; simpl; [reflexivity|].
  unfold charAtIs. rewrite get_semis by lia. simpl. apply IH. lia.
Qed.

(** The scan over [p ; ... ;] stops right after [p] when [p] ends in a
    code unit other than the separator. *)
Lemma scan_stops (p : string) (c : ascii) (n k d : nat) :
  last p = Some c -> c <> ";"%char -> (k <= n)%nat ->
  scanTrailingSemi (p +:+ semis n) (String.length p + k) d = String.length p.
Proof.
  intros Hl Hc. induction k as [|k IH]; intros Hk.
  - rewrite Nat.add_0_r. pose proof (last_nonempty _ _ Hl) as Hp.
    destruct (String.length p) as [|j] eqn:E; [lia|]. simpl.
    unfold charAtIs. rewrite get_append_l by lia.
    replace j with (String.length p - 1)%nat by lia.
    rewrite (get_last _ _ Hl).
    destruct (Ascii.eqb_spec c ";"%char) as [->|_]; [congruence|reflexivity].
  - rewrite Nat.add_succ_r. simpl. unfold charAtIs.
    rewrite get_append_r, get_semis by lia. simpl. apply IH. lia.
Qed.

(** [removeTrailingSemi] removes the whole run of trailing separators from a
    statement that has something else in front of them. *)
Lemma removeTrailingSemi_strips (p : string) (c : ascii) (n : nat) :
  last p = Some c -> c <> ";"%char ->
  removeTrailingSemi (p +:+ semis n) = p.
Proof.
  intros Hl Hc. unfold removeTrailingSemi.
  rewrite length_append, length_semis.
  rewrite (scan_stops p c n n _ Hl Hc) by lia.
  destruct (Nat.eqb_spec (String.length p) (String.length p + n)) as [E|E]; simpl.
  - assert (n = 0)%nat as -> by lia.
    clear. induction p as [|d p IH]; [reflexivity|].
    simpl in IH. change (String d (p +:+ "") = String d p). now rewrite IH.
  - apply slice0_append.
Qed.

Lemma trimEnd_semis (n : nat) : trimEnd (semis n) = semis n.
Proof.
  induction n as [|n IH]; [reflexivity|].
  change (trimEnd (semis (S n))) with
    (match trimEnd (semis n) with
     | EmptyString =>
         if isWhiteSpace ";" then EmptyString else String ";" EmptyString
     | r => String ";" r
     end).
  rewrite IH. destruct n; reflexivity.
Qed.

Lemma trim_semis (n : nat) : trim (semis n) = semis n.
Proof.
  unfold trim. replace (trimStart (semis n)) with (semis n).
  - apply trimEnd_semis.
  - destruct n; reflexivity.
Qed.

Lemma append_nil_r (s : string) : s +:+ "" = s.
Proof.
  induction s as [|c s IH]; [reflexivity|].
  change (String c (s +:+ "") = String c s). now rewrite IH.
Qed.

Lemma removeTrailingSemi_semis (n : nat) :
  removeTrailingSemi (semis n) = semis n.
Proof.
  unfold removeTrailingSemi. rewrite length_semis, scan_semis by lia.
  now rewrite Nat.eqb_refl.
Qed.

(** Every string is a run of separators, or something that ends in another
    code unit followed by a run of separators. *)
Lemma semis_decomposition (q : string) :
  (exists n, q = semis n)
  \/ (exists p c n, q = p +:+ semis n /\ last p = Some c /\ c <> ";"%char).
Proof.
  induction q as [|a q IH]; [left; now exists 0%nat|].
  destruct IH as [[n ->] | (p & c & n & -> & Hl & Hc)].
  - destruct (Ascii.eqb_spec a ";"%char) as [-> | Ha].
    + left. now exists (S n).
    + right. exists (String a EmptyString), a, n. auto.
  - right. exists (String a p), c, n. repeat split; [|exact Hc].
    destruct p; [discriminate | exact Hl].
Qed.

Example removeTrailingSemi_select :
  removeTrailingSemi "SELECT 1;;;" = "SELECT 1".
Proof. reflexivity. Qed.

Example formatQuery_select :
  formatQuery "  SELECT 1; " "JSON" = "SELECT 1 " +:+ LF +:+ "FORMAT JSON".
Proof. reflexivity. Qed.

(** C3 (the code at the failing inputs).  A statement that consists of
    separators only is returned unchanged by [removeTrailingSemi], also
    after trimming: the loop never assigns [lastNonSemiIdx], which keeps
    its initial value [query.length], and the final test takes that value
    for "nothing to strip".  The statement sent by [exec] for [";;;"] is
    [";;;"], not the empty string. *)
Theorem removeTrailingSemi_only_separators (n : nat) :
  removeTrailingSemi (trim (semis n)) = semis n
  /\ removeTrailingSemi ";;;" = ";;;".
Proof.
  split; [|reflexivity].
  rewrite trim_semis.
  unfold removeTrailingSemi. rewrite length_semis, scan_semis by lia.
  now rewrite Nat.eqb_refl.
Qed.

(** ** The request transport *)

Ltac case_branches :=
  repeat (simpl;
    match goal with
    | |- context [if ?b then _ else _] => destruct b
    | |- context [match ?e with _ => _ end] => destruct e
    end);
  simpl; try reflexivity; try congruence.

Ltac unfold_handlers :=
  unfold dispatch, emitSocket, emitError, emitAbort, onSocket, onError,
    onResponse, onBody, onAbort, onClose, onTimeout, pipelineCallback,
    removeRequestListeners, resolve, reject, settle, withHandlers.


Lemma run_app config x (t1 t2 : list event) :
  run config x (t1 ++ t2)%list = run config (run config x t1) t2.
Proof. unfold run. apply fold_left_app. Qed.

(** A settled promise is not changed by any handler. *)
Lemma stable_step config x ev :
  isSettled (outcome x) = true -> outcome (dispatch config x ev) = outcome x.
Proof.
  intros H. destruct x as [o s so h rd pp d u]. simpl in H.
  destruct o; [discriminate | |];
    destruct ev; unfold_handlers; case_branches.
Qed.

Lemma stable_run config x trace :
  isSettled (outcome x) = true -> outcome (run config x trace) = outcome x.
Proof.
  revert x. induction trace as [|ev trace IH]; intros x H; [reflexivity|].
  simpl. rewrite IH; rewrite stable_step; auto.
Qed.







(** Socket events before anything else only arm the idle timeout. *)
Lemma sockets_only config params k :
  run config (start params) (repeat EvSocket k)
  = match k with
    | 0 => start params
    | S _ => dispatch config (start params) EvSocket
    end.
Proof.
  destruct k as [|k]; [reflexivity|]. simpl.
  induction k as [|k IH]; [reflexivity|]. simpl.
  replace (emitSocket config (emitSocket config (start params)))
    with (emitSocket config (start params)); [exact IH|].
  unfold_handlers. simpl.
  destruct (cfg_request_timeout config <? 0)%Z; reflexivity.
Qed.

Lemma first_event config params k ev rest o :
  isSettled o = true ->
  outcome (dispatch config (start params) ev) = o ->
  outcome (dispatch config (dispatch config (start params) EvSocket) ev) = o ->
  outcome (run config (start params) (repeat EvSocket k ++ ev :: rest)%list) = o.
Proof.
  intros Ho H0 H1. rewrite run_app, sockets_only.
  change (run config ?x (ev :: rest)) with (run config (dispatch config x ev) rest).
  destruct k; rewrite stable_run; rewrite ?H0, ?H1; auto.
Qed.

Lemma wellFormed_start params : wellFormed (start params).
Proof. split; [reflexivity | discriminate]. Qed.

Lemma wellFormed_step config x ev :
  wellFormed x -> wellFormed (dispatch config x ev).
Proof.
  unfold wellFormed, requestListeners. intros [H1 H2].
  destruct x as [o s so h rd pp d u]. destruct h as [a b c e t f n].
  simpl in H1, H2. injection H1 as -> -> ->.
  destruct ev; unfold_handlers; simpl;
    repeat match goal with
      | |- context [if ?b then _ else _] => destruct b eqn:?
      | |- context [match ?e with _ => _ end] => destruct e eqn:?
      end;
    simpl in *; split; try reflexivity; try discriminate;
    try (intros Ht; destruct (H2 Ht); split; congruence);
    try (intros _; split; reflexivity).
Qed.

Lemma wellFormed_run config x trace :
  wellFormed x -> wellFormed (run config x trace).
Proof.
  revert x. induction trace as [|ev trace IH]; intros x H; [exact H|].
  simpl. apply IH. now apply wellFormed_step.
Qed.

(** Detached listeners are never attached again. *)
Lemma detached_step config x ev :
  wellFormed x -> on_close (handlers x) = false ->
  on_close (handlers (dispatch config x ev)) = false.
Proof.
  unfold wellFormed, requestListeners. intros [H1 H2] Hc.
  destruct x as [o s so h rd pp d u]. destruct h as [a b c e t f n].
  simpl in H1, H2, Hc. subst e. injection H1 as -> -> ->.
  destruct ev; unfold_handlers; simpl;
    repeat match goal with
      | |- context [if ?b then _ else _] => destruct b eqn:?
      | |- context [match ?e with _ => _ end] => destruct e eqn:?
      end;
    simpl in *; try reflexivity; try discriminate;
    try (destruct H2; [reflexivity | discriminate]).
Qed.

Lemma close_or_error_detaches config x ev :
  wellFormed x -> isCloseOrError ev = true ->
  on_close (handlers (dispatch config x ev)) = false.
Proof.
  unfold wellFormed, requestListeners. intros [H1 H2] Hev.
  destruct x as [o s so h rd pp d u]. destruct h as [a b c e t f n].
  simpl in H1, H2. injection H1 as -> -> ->.
  destruct ev; try discriminate Hev; destruct e; unfold_handlers; simpl;
    repeat match goal with
      | |- context [if ?b then _ else _] => destruct b eqn:?
      | |- context [match ?e with _ => _ end] => destruct e eqn:?
      end;
    simpl in *; reflexivity.
Qed.

Lemma detached_after config x trace :
  wellFormed x ->
  on_close (handlers x) = false \/ existsb isCloseOrError trace = true ->
  on_close (handlers (run config x trace)) = false.
Proof.
  revert x. induction trace as [|ev trace IH]; intros x Hw H.
  - destruct H as [H|H]; [exact H | discriminate].
  - simpl. apply IH; [now apply wellFormed_step|].
    destruct H as [H|H].
    + left. now apply detached_step.
    + simpl in H. apply orb_true_iff in H as [H|H].
      * left. now apply close_or_error_detaches.
      * now right.
Qed.

Lemma abort_listener_step config x ev :
  on_abort (handlers (dispatch config x ev))
  = on_abort (handlers x) && negb (isAbortEvent ev).
Proof.
  destruct x as [o s so h rd pp d u]. destruct h as [a b c e t f n].
  destruct ev; unfold_handlers; simpl;
    repeat match goal with
      | |- context [if ?b then _ else _] => destruct b eqn:?
      | |- context [match ?e with _ => _ end] => destruct e eqn:?
      end;
    simpl in *; subst; try reflexivity; try discriminate;
    rewrite ?andb_true_r; reflexivity.
Qed.

(** After any number of socket events, each of these events settles a
    pending exchange with its own outcome, whatever follows. *)
Lemma settling_events config params k rest :
  let after ev :=
    outcome (run config (start params)
               (repeat EvSocket k ++ ev :: rest)%list) in
  (forall err, after (EvError err) = Rejected err)
  /\ (is_Some (rq_abort_signal params) ->
      after EvAbort = Rejected (Error "The request was aborted."))
  /\ ((0 < k)%nat -> (0 < cfg_request_timeout config)%Z ->
      after EvTimeout = Rejected (Error "Timeout error"))
  /\ (forall r s,
        decompressResponse r = inl s ->
        isSuccessfulResponse (statusCode r) = true ->
        after (EvResponse r) = Fulfilled s)
  /\ (forall r err,
        decompressResponse r = inr err ->
        after (EvResponse r) = Rejected err)
  /\ (forall err,
        noBody (rq_body params) = false ->
        after (EvPipeline (Some err)) = Rejected err).
Proof.
  intros after. unfold after. repeat split.
  - intros err. now apply first_event.
  - intros Hs. apply first_event; [reflexivity | |];
      unfold_handlers; simpl; rewrite bool_decide_eq_true_2 by exact Hs;
      reflexivity.
  - intros Hk Ht. rewrite run_app, sockets_only.
    destruct k as [|k]; [lia|].
    change (run config ?x (EvTimeout :: rest))
      with (run config (dispatch config x EvTimeout) rest).
    assert ((cfg_request_timeout config <? 0)%Z = false) as E1
      by (apply Z.ltb_ge; lia).
    assert ((cfg_request_timeout config =? 0)%Z = false) as E
      by (apply Z.eqb_neq; lia).
    rewrite stable_run; unfold_handlers; simpl; rewrite E1, E; reflexivity.
  - intros r s Hd Hok. apply first_event; [reflexivity | |];
      unfold_handlers; simpl; rewrite Hd, Hok; reflexivity.
  - intros r err Hd. apply first_event; [reflexivity | |];
      unfold_handlers; simpl; rewrite Hd; reflexivity.
  - intros err Hb. apply first_event; [reflexivity | |];
      unfold_handlers; simpl; rewrite Hb; reflexivity.
Qed.


Lemma decides config x ev rest o :
  isSettled o = true ->
  outcome (dispatch config x ev) = o ->
  outcome (run config x (ev :: rest)) = o.
Proof.
  intros Ho H.
  change (run config x (ev :: rest)) with (run config (dispatch config x ev) rest).
  rewrite stable_run; rewrite H; auto.
Qed.

(** What each event does to a pending exchange that still listens for it. *)
Lemma pending_verdicts config x :
  outcome x = Pending ->
  (on_error (handlers x) = true ->
   forall err, outcome (dispatch config x (EvError err)) = Rejected err)
  /\ (on_abort (handlers x) = true ->
      outcome (dispatch config x EvAbort)
      = Rejected (Error "The request was aborted."))
  /\ (on_timeout (handlers x) = true ->
      outcome (dispatch config x EvTimeout) = Rejected (Error "Timeout error"))
  /\ (on_response (handlers x) = true ->
      forall r s,
        decompressResponse r = inl s ->
        isSuccessfulResponse (statusCode r) = true ->
        outcome (dispatch config x (EvResponse r)) = Fulfilled s)
  /\ (on_response (handlers x) = true ->
      forall r err,
        decompressResponse r = inr err ->
        outcome (dispatch config x (EvResponse r)) = Rejected err)
  /\ (piping x = true ->
      forall err, outcome (dispatch config x (EvPipeline (Some err))) = Rejected err)
  /\ (reading x <> [] ->
      forall text,
        outcome (dispatch config x (EvBody (Some text)))
        = Rejected (ParsedError text)).
Proof.
  intros Hp. destruct x as [o st so h rd pp d u]. simpl in Hp. subst o.
  repeat split; simpl; intros H; intros; unfold_handlers; simpl;
    try rewrite H; simpl;
    repeat match goal with
      | E : decompressResponse _ = _ |- _ => rewrite E
      | E : isSuccessfulResponse _ = _ |- _ => rewrite E
      end; try reflexivity.
  destruct rd; [contradiction | reflexivity].
Qed.















Example post_flow_settles_on_response :
  outcome (run Sample.config (start (Demo.post None))
             [EvSocket; EvPipeline None; EvResponse (Sample.ok None); EvClose])
  = Fulfilled (Body (Sample.ok None)).
Proof. reflexivity. Qed.



(** ** Inbound decompression *)




(** ** Cancellation *)

(** Once [onAbort] has run, the request has no [onError] listener and one
    empty ['error'] listener; no event other than ['error'] changes that. *)
Lemma sink_kept config x ev :
  isErrorEvent ev = false ->
  on_error (handlers x) = false /\ (0 < error_sinks (handlers x))%nat ->
  on_error (handlers (dispatch config x ev)) = false
  /\ (0 < error_sinks (handlers (dispatch config x ev)))%nat.
Proof.
  intros Hev [H1 H2]. destruct x as [o s so h rd pp d u].
  destruct h as [h1 h2 h3 h4 h5 h6 n]. simpl in H1, H2. subst h3.
  destruct ev; try discriminate Hev; unfold_handlers;
    repeat (simpl;
      match goal with
      | |- context [if ?b then _ else _] => destruct b
      | |- context [match ?e with _ => _ end] => destruct e
      end);
    simpl; split; solve [reflexivity | lia].
Qed.

Lemma sink_kept_run config x trace :
  forallb (fun ev => negb (isErrorEvent ev)) trace = true ->
  on_error (handlers x) = false /\ (0 < error_sinks (handlers x))%nat ->
  on_error (handlers (run config x trace)) = false
  /\ (0 < error_sinks (handlers (run config x trace)))%nat.
Proof.
  revert x. induction trace as [|ev trace IH]; intros x Ht Hx; [exact Hx|].
  simpl in Ht. apply andb_true_iff in Ht as [Hev Ht].
  simpl. apply IH; [exact Ht|]. apply sink_kept; [|exact Hx].
  now destruct (isErrorEvent ev).
Qed.

(** An ['error'] event that meets only the empty listener calls neither
    [reject] nor the uncaught-exception path. *)
Lemma error_swallowed config x err :
  on_error (handlers x) = false /\ (0 < error_sinks (handlers x))%nat ->
  let x' := dispatch config x (EvError err) in
  outcome x' = outcome x /\ settlements x' = settlements x
  /\ uncaught x' = uncaught x.
Proof.
  intros [H1 H2]. unfold_handlers. rewrite H1. simpl.
  destruct (error_sinks (handlers x)) as [|n]; [lia|]. simpl. auto.
Qed.

(** C8.  When the abort signal fires while the exchange is pending, the
    promise is rejected with the cancellation error; the next ['error']
    event of the request, whatever else happens in between, is swallowed:
    it calls neither [reject] nor is it thrown as uncaught; and whatever
    follows, the outcome stays the cancellation. *)
Theorem abort_cancels_and_swallows_error config x mid err rest :
  outcome x = Pending ->
  on_abort (handlers x) = true ->
  forallb (fun ev => negb (isErrorEvent ev)) mid = true ->
  let xa := dispatch config x EvAbort in
  let xm := run config xa mid in
  let xe := dispatch config xm (EvError err) in
  outcome xa = Rejected (Error "The request was aborted.")
  /\ settlements xe = settlements xm
  /\ uncaught xe = uncaught xm
  /\ outcome (run config xe rest) = Rejected (Error "The request was aborted.").
Proof.
  intros Hp Ha Hmid xa xm xe.
  assert (outcome xa = Rejected (Error "The request was aborted.")) as Hxa.
  { unfold xa. unfold_handlers. rewrite Ha. simpl. now rewrite Hp. }
  assert (on_error (handlers xa) = false
          /\ (0 < error_sinks (handlers xa))%nat) as Hs.
  { unfold xa. unfold_handlers. rewrite Ha. simpl. split; [reflexivity | lia]. }
  pose proof (sink_kept_run config xa mid Hmid Hs) as Hm. fold xm in Hm.
  destruct (error_swallowed config xm err Hm) as (Ho & Hc & Hu). fold xe in Ho, Hc, Hu.
  split; [exact Hxa|]. split; [exact Hc|]. split; [exact Hu|].
  assert (outcome xe = Rejected (Error "The request was aborted.")) as Hxe.
  { rewrite Ho. unfold xm. rewrite stable_run; [exact Hxa | now rewrite Hxa]. }
  rewrite stable_run; [exact Hxe | now rewrite Hxe].
Qed.

Lemma abort_cancels_and_swallows_error_witness :
  let x := start (Sample.get (Some 1%nat) None) in
  let xa := dispatch Sample.config x EvAbort in
  let xm := run Sample.config xa [EvSocket; EvClose] in
  let xe := dispatch Sample.config xm (EvError (Error "ECONNRESET")) in
  outcome xa = Rejected (Error "The request was aborted.")
  /\ settlements xe = settlements xm
  /\ uncaught xe = uncaught xm
  /\ outcome (run Sample.config xe [EvClose])
     = Rejected (Error "The request was aborted.").
Proof.
  apply (abort_cancels_and_swallows_error Sample.config
           (start (Sample.get (Some 1%nat) None)) [EvSocket; EvClose]
           (Error "ECONNRESET") [EvClose]); reflexivity.
Defined.

(** ** The connection *)

Example ping_connection_refused :
  fst (BaseHttpAdapter.ping Sample.config
         (Sample.world [[EvError (Error "connect ECONNREFUSED")]]))
  = Rejected (Error "connect ECONNREFUSED").
Proof. reflexivity. Qed.

Example ping_server_error :
  fst (BaseHttpAdapter.ping Sample.config
         (Sample.world
            [[EvSocket;
              EvResponse {| statusCode := Some 503%Z; content_encoding := None;
                            payload := 0 |};
              EvBody (Some "Service Unavailable"); EvClose]]))
  = Rejected (ParsedError "Service Unavailable").
Proof. reflexivity. Qed.

(** C2 (the code at the failing inputs).  [ping] awaits [request] with no
    handler around it: when the exchange fails, with the error of an
    ['error'] event, with a timeout, or with the parsed body of a non-2xx
    response, the promise returned by the adapter's [ping], and by the
    client's [ping] that awaits it, is rejected with that failure.  On a
    successful exchange both resolve to [true]. *)
Theorem ping_rejects_when_exchange_fails {T ResultSet : Type}
    settings session
    (mk : readable -> string -> string -> ResultSet)
    (enc : ValuesEncoder readable T) close err events rest :
  let this := httpClient Sample.config settings session mk enc close in
  fst (Client.ping this (Sample.world ((EvError err :: events) :: rest)))
  = Rejected err
  /\ fst (Client.ping this
            (Sample.world ((EvSocket :: EvTimeout :: events) :: rest)))
     = Rejected (Error "Timeout error")
  /\ fst (Client.ping this
            (Sample.world
               ([EvSocket;
                 EvResponse {| statusCode := Some 503%Z;
                               content_encoding := None; payload := 0 |};
                 EvBody (Some "Service Unavailable"); EvClose] :: rest)))
     = Rejected (ParsedError "Service Unavailable")
  /\ fst (Client.ping this
            (Sample.world
               ((EvSocket :: EvResponse (Sample.ok None) :: events) :: rest)))
     = Fulfilled true.
Proof.
  intros this.
  assert (forall w,
            fst (Client.ping this w)
            = match outcome (run Sample.config
                               (start BaseHttpAdapter.pingRequest)
                               (hd [] (network w))) with
              | Fulfilled _ => Fulfilled true
              | Rejected e => Rejected e
              | Pending => Pending
              end) as Hping.
  { intros w. unfold Client.ping, this, httpClient, await, ret. simpl.
    unfold BaseHttpAdapter.ping, await, request, destroy, ret.
    destruct (outcome _); reflexivity. }
  pose proof (settling_events Sample.config BaseHttpAdapter.pingRequest) as S.
  rewrite !Hping.
  change (hd [] (network (Sample.world (?t :: rest)))) with t.
  repeat split.
  - destruct (S 0%nat events) as (He & _).
    change (EvError err :: events)
      with (repeat EvSocket 0 ++ EvError err :: events)%list.
    now rewrite He.
  - destruct (S 1%nat events) as (_ & _ & Ht & _).
    change (EvSocket :: EvTimeout :: events)
      with (repeat EvSocket 1 ++ EvTimeout :: events)%list.
    rewrite Ht; [reflexivity | lia | reflexivity].
  - destruct (S 1%nat events) as (_ & _ & _ & Hok & _).
    change (EvSocket :: EvResponse (Sample.ok None) :: events)
      with (repeat EvSocket 1 ++ EvResponse (Sample.ok None) :: events)%list.
    rewrite (Hok (Sample.ok None) (Body (Sample.ok None))); reflexivity.
Qed.

Example query_with_empty_query_id :
  fst (BaseHttpAdapter.query Sample.config (Sample.params (Some ""))
         (Sample.world [[EvSocket; EvResponse (Sample.ok None); EvClose]]))
  = Fulfilled {| qr_stream := Body (Sample.ok None);
                 qr_query_id := "6f1c1d0e-3b7a-4c58-9a52-0d6c6a1f2b11" |}.
Proof. reflexivity. Qed.

Example insert_with_query_id :
  fst (BaseHttpAdapter.insert Sample.config (inl "[1]")
         (Sample.params (Some "my-id"))
         (Sample.world [[EvSocket; EvResponse (Sample.ok None); EvClose]]))
  = Fulfilled {| ir_query_id := "my-id"; ir_summary := None |}.
Proof. reflexivity. Qed.


(** ** The client facade *)

Lemma append_assoc (s t u : string) : (s +:+ t) +:+ u = s +:+ t +:+ u.
Proof.
  induction s as [|c s IH]; [reflexivity|].
  change (String c ((s +:+ t) +:+ u) = String c (s +:+ t +:+ u)).
  now rewrite IH.
Qed.

(** C5.  [insert] with an empty array returns
    [{executed: false, query_id: ''}] and leaves the world as it was,
    whatever the connection is; through a recording connection no call is
    logged. *)
Theorem insert_empty_array_is_noop {W Stream T PingResult ResultSet : Type}
    (this : ClickHouseClient W Stream T PingResult ResultSet)
    table format columns base w log :
  let params :=
    {| i_table := table; i_values := ValuesArray []; i_format := format;
       i_columns := columns; i_base := base |} in
  let result :=
    {| executed := false; ins_query_id := ""; ins_summary := None |} in
  Client.insert this params w = (Fulfilled result, w)
  /\ Client.insert (traced this) params (log, w) = (Fulfilled result, (log, w)).
Proof. split; reflexivity. Qed.

Example getInsertQuery_columns :
  getInsertQuery "t" (Some (Columns ["a"; "b"])) "JSONEachRow"
  = "INSERT INTO t (a, b) FORMAT JSONEachRow".
Proof. reflexivity. Qed.

Example getInsertQuery_except :
  getInsertQuery "t" (Some (ColumnsExcept ["a"; "b"])) "JSONEachRow"
  = "INSERT INTO t (* EXCEPT (a, b)) FORMAT JSONEachRow".
Proof. reflexivity. Qed.

Example getInsertQuery_all_columns :
  getInsertQuery " t " None "JSONEachRow" = "INSERT INTO t FORMAT JSONEachRow".
Proof. reflexivity. Qed.

(** C6.  The column clause of the INSERT statement: the joined names in
    parentheses for a non-empty array, the same after "* EXCEPT" in a
    second pair of parentheses for a non-empty [except] array, and nothing when no columns are given or the array
    given is empty; the statement is [INSERT INTO], the trimmed table name,
    the clause, [FORMAT] and the format, and it is the statement [insert]
    hands to the connection when there is something to insert. *)
Theorem getInsertQuery_column_clause table format c cs :
  getInsertQuery table (Some (Columns (c :: cs))) format
  = "INSERT INTO " +:+ trim table
    +:+ (" (" +:+ join ", " (c :: cs) +:+ ")") +:+ " FORMAT " +:+ format
  /\ getInsertQuery table (Some (ColumnsExcept (c :: cs))) format
     = "INSERT INTO " +:+ trim table
       +:+ (" (* EXCEPT (" +:+ join ", " (c :: cs) +:+ "))")
       +:+ " FORMAT " +:+ format
  /\ getInsertQuery table None format
     = "INSERT INTO " +:+ trim table +:+ " FORMAT " +:+ format
  /\ getInsertQuery table (Some (Columns [])) format
     = "INSERT INTO " +:+ trim table +:+ " FORMAT " +:+ format
  /\ getInsertQuery table (Some (ColumnsExcept [])) format
     = "INSERT INTO " +:+ trim table +:+ " FORMAT " +:+ format
  /\ getInsertQuery "t" (Some (Columns ["a"; "b"])) format
     = "INSERT INTO t (a, b) FORMAT " +:+ format
  /\ getInsertQuery "t" (Some (ColumnsExcept ["a"; "b"])) format
     = "INSERT INTO t (* EXCEPT (a, b)) FORMAT " +:+ format
  /\ (forall (W Stream T PingResult ResultSet : Type)
        (this : ClickHouseClient W Stream T PingResult ResultSet)
        (params : InsertParams Stream T) log w,
        let format :=
          match i_format params with
          | Some f => if String.eqb f "" then "JSONCompactEachRow" else f
          | None => "JSONCompactEachRow"
          end in
        Client.isEmptyArray (i_values params) = false ->
        validateInsertValues (valuesEncoder this) (i_values params) format
        = None ->
        exists p,
          fst (snd (Client.insert (traced this) params (log, w)))
          = (log ++ [CallInsert
                       (encodeValues (valuesEncoder this) (i_values params)
                          format) p])%list
          /\ cp_query p
             = getInsertQuery (i_table params) (i_columns params) format).
Proof.
  repeat split.
  intros W Stream T PingResult ResultSet this params log w fmt Hne Hok.
  eexists. split.
  - unfold Client.insert. rewrite Hne.
    change (valuesEncoder (traced this)) with (valuesEncoder this).
    fold fmt. rewrite Hok. unfold await, traced. simpl connection.
    unfold recording, conn_insert at 1, logged. simpl.
    destruct (conn_insert _ _ _ w) as [[|r|e] w2]; reflexivity.
  - reflexivity.
Qed.

Lemma formatQuery_endsWith query format :
  endsWith (formatQuery query format) (LF +:+ "FORMAT " +:+ format).
Proof.
  exists (removeTrailingSemi (trim query) +:+ " ").
  unfold formatQuery. now rewrite append_assoc.
Qed.

Lemma request_sent config params w :
  sent (snd (request config params w)) = (sent w ++ [params])%list.
Proof. reflexivity. Qed.

Example query_of_separators_only :
  rq_body <$> sent (snd (Client.query Demo.client
                           {| q_query := " ;;; "; q_format := None;
                              q_base := Demo.base |}
                           (Sample.world [])))
  = [Some (inl (";;;" +:+ " " +:+ LF +:+ "FORMAT JSON"))].
Proof. reflexivity. Qed.

(** C7 (the code, at the failing inputs and elsewhere).  [query] sends one
    request whose body is a statement followed by a space, a line feed,
    [FORMAT] and the requested format, [JSON] when none is given, so the
    body always ends with a line feed and that directive.  The statement in
    front of the directive is the trimmed statement without its trailing
    separators when something else stands before them; when the trimmed
    statement consists of separators only, the directive follows the
    separators, none of them removed: the body for [" ;;; "] is [";;;"]
    followed by the directive. *)
Theorem query_directive_follows_unstripped_separators {T ResultSet : Type}
    config settings session
    (mk : readable -> string -> string -> ResultSet)
    (enc : ValuesEncoder readable T) close statement format base w :
  let params := {| q_query := statement; q_format := format; q_base := base |} in
  let directive := " " +:+ LF +:+ "FORMAT " +:+ default "JSON" format in
  exists body,
    rq_body <$> sent (snd (Client.query
                             (httpClient config settings session mk enc close)
                             params w))
    = ((rq_body <$> sent w) ++ [Some (inl body)])%list
    /\ endsWith body (LF +:+ "FORMAT " +:+ default "JSON" format)
    /\ (forall m, trim statement = semis m -> body = semis m +:+ directive)
    /\ (forall p c n,
          trim statement = p +:+ semis n ->
          last p = Some c -> c <> ";"%char ->
          body = p +:+ directive)
    /\ ((exists m, trim statement = semis m)
        \/ (exists p c n,
              trim statement = p +:+ semis n
              /\ last p = Some c /\ c <> ";"%char))
    /\ (statement = " ;;; " -> body = ";;;" +:+ directive).
Proof.
  intros params directive.
  exists (formatQuery statement (default "JSON" format)).
  split; [|split; [|split; [|split; [|split]]]].
  - unfold Client.query, httpClient, await. simpl connection.
    unfold conn_query, BaseHttpAdapter.connection, BaseHttpAdapter.query, await.
    destruct (BaseHttpAdapter.getQueryId _ w) as [[|id|e] w1] eqn:Hid.
    + exfalso. unfold BaseHttpAdapter.getQueryId, uuid_v4, ret in Hid.
      repeat match type of Hid with
        | context [match ?e with _ => _ end] => destruct e
        | context [if ?e then _ else _] => destruct e
        end; discriminate.
    + assert (sent w1 = sent w) as Hs.
      { unfold BaseHttpAdapter.getQueryId, uuid_v4, ret in Hid.
        repeat match type of Hid with
          | context [match ?e with _ => _ end] => destruct e
          | context [if ?e then _ else _] => destruct e
          end; inversion Hid; reflexivity. }
      match goal with
      | |- context [request ?c ?p w1] =>
          pose proof (request_sent c p w1) as Hr;
          destruct (request c p w1) as [[|s|e] w2]
      end; simpl in Hr |- *; rewrite Hr, fmap_app, Hs; reflexivity.
    + exfalso. unfold BaseHttpAdapter.getQueryId, uuid_v4, ret in Hid.
      repeat match type of Hid with
        | context [match ?e with _ => _ end] => destruct e
        | context [if ?e then _ else _] => destruct e
        end; discriminate.
  - apply formatQuery_endsWith.
  - intros m Hm. unfold formatQuery, directive.
    now rewrite Hm, removeTrailingSemi_semis.
  - intros p c n Hs Hl Hc. unfold formatQuery, directive.
    now rewrite Hs, (removeTrailingSemi_strips p c n Hl Hc).
  - destruct (semis_decomposition (trim statement))
      as [[m Hm] | (p & c & n & Hs & Hl & Hc)].
    + left. now exists m.
    + right. exists p, c, n. auto.
  - intros ->. reflexivity.
Qed.

Example withClientQueryParams_merge :
  let this :=
    httpClient (T := nat) Sample.config
      {[ "max_threads" := SNum 4; "readonly" := SNum 1 ]} (Some "client-session")
      (fun s f id => (s, f, id))
      {| validateInsertValues := fun _ _ => None;
         encodeValues := fun _ _ => inl "" |}
      (fun _ => ret tt) in
  let p :=
    Client.withClientQueryParams this "SELECT 1"
      {| clickhouse_settings := Some {[ "max_threads" := SNum 8 ]};
         query_params := None; abort_signal := None; query_id := None;
         session_id := Some "call-session" |} in
  cp_session_id p = Some "client-session"
  /\ (cp_clickhouse_settings p ≫= (.!! "max_threads")) = Some (SNum 8)
  /\ (cp_clickhouse_settings p ≫= (.!! "readonly")) = Some (SNum 1).
Proof. repeat split. Qed.

(** C9.  The parameters the client passes to the connection: the settings
    are the client's settings overridden key by key by the settings of the
    call, the session id is the client's whatever the call's [session_id]
    is, and the rest is the call's.  [query], [exec] and [command] make
    exactly one connection call, with these parameters; [insert] makes
    exactly one, with these parameters, when its values are not an empty
    array and pass validation, and none otherwise. *)
Theorem calls_carry_merged_settings_and_session
    {W Stream T PingResult ResultSet : Type}
    (this : ClickHouseClient W Stream T PingResult ResultSet) :
  (forall statement base,
     let p := Client.withClientQueryParams this statement base in
     (exists merged,
        cp_clickhouse_settings p = Some merged
        /\ forall key,
             merged !! key
             = match default ∅ (clickhouse_settings base) !! key with
               | Some v => Some v
               | None => clientClickHouseSettings this !! key
               end)
     /\ cp_session_id p = sessionId this
     /\ cp_query p = statement
     /\ cp_query_params p = query_params base
     /\ cp_abort_signal p = abort_signal base
     /\ cp_query_id p = query_id base)
  /\ (forall params log w,
        fst (snd (Client.query (traced this) params (log, w)))
        = (log ++ [CallQuery
                     (Client.withClientQueryParams this
                        (formatQuery (q_query params)
                           (default "JSON" (q_format params)))
                        (q_base params))])%list)
  /\ (forall params log w,
        fst (snd (Client.exec (traced this) params (log, w)))
        = (log ++ [CallExec
                     (Client.withClientQueryParams this
                        (removeTrailingSemi (trim (e_query params)))
                        (e_base params))])%list)
  /\ (forall params log w,
        fst (snd (Client.command (traced this) params (log, w)))
        = (log ++ [CallExec
                     (Client.withClientQueryParams this
                        (removeTrailingSemi (trim (e_query params)))
                        (e_base params))])%list)
  /\ (forall params log w,
        let format :=
          match i_format params with
          | Some f => if String.eqb f "" then "JSONCompactEachRow" else f
          | None => "JSONCompactEachRow"
          end in
        fst (snd (Client.insert (traced this) params (log, w)))
        = if Client.isEmptyArray (i_values params) then log
          else
            match validateInsertValues (valuesEncoder this) (i_values params)
                    format with
            | Some _ => log
            | None =>
                (log ++ [CallInsert
                           (encodeValues (valuesEncoder this)
                              (i_values params) format)
                           (Client.withClientQueryParams this
                              (getInsertQuery (i_table params)
                                 (i_columns params) format)
                              (i_base params))])%list
            end).
Proof.
  split; [|split; [|split; [|split]]].
  - intros statement base p. split; [|repeat split].
    eexists. split; [reflexivity|]. intros key.
    rewrite lookup_union.
    destruct (default ∅ (clickhouse_settings base) !! key);
      destruct (clientClickHouseSettings this !! key); reflexivity.
  - intros params log w. unfold Client.query, await, traced.
    simpl connection. unfold recording, conn_query at 1, logged. simpl.
    destruct (conn_query _ _ w) as [[|r|e] w2]; reflexivity.
  - intros params log w. unfold Client.exec, traced.
    simpl connection. unfold recording, conn_exec at 1, logged. simpl.
    destruct (conn_exec _ _ w) as [[|r|e] w2]; reflexivity.
  - intros params log w. unfold Client.command, Client.exec, await, traced.
    simpl connection. unfold recording, conn_exec at 1, logged. simpl.
    destruct (conn_exec _ _ w) as [[|r|e] w2]; simpl; try reflexivity.
    destruct (closeStream this (er_stream r) w2) as [[|u|e] w3]; reflexivity.
  - intros params log w format. unfold Client.insert.
    destruct (Client.isEmptyArray (i_values params)); [reflexivity|].
    change (valuesEncoder (traced this)) with (valuesEncoder this).
    fold format.
    destruct (validateInsertValues (valuesEncoder this) (i_values params)
                format); [reflexivity|].
    unfold await, traced. simpl connection.
    unfold recording, conn_insert at 1, logged. simpl.
    destruct (conn_insert _ _ _ w) as [[|r|e] w2]; reflexivity.
Qed.

(** * Further properties of the code *)

(** ** Statement normalisation *)

(** X1.  [removeTrailingSemi] only ever removes separators from the end:
    the statement is the result followed by a run of separators. *)
Theorem removeTrailingSemi_removes_only_trailing_separators (q : string) :
  exists n, q = removeTrailingSemi q +:+ semis n.
Proof.
  destruct (semis_decomposition q) as [[n ->] | (p & c & n & -> & Hl & Hc)].
  - exists 0%nat. rewrite removeTrailingSemi_semis. simpl semis.
    now rewrite append_nil_r.
  - exists n. now rewrite (removeTrailingSemi_strips p c n Hl Hc).
Qed.

(** X2.  The result of [removeTrailingSemi] ends in a separator only when
    the statement consists of separators and nothing else. *)
Theorem removeTrailingSemi_result_ends_in_separator_only_if_all (q : string) :
  (exists n, q = semis n) \/ last (removeTrailingSemi q) <> Some ";"%char.
Proof.
  destruct (semis_decomposition q) as [H | (p & c & n & -> & Hl & Hc)].
  - now left.
  - right. rewrite (removeTrailingSemi_strips p c n Hl Hc), Hl. congruence.
Qed.

(** X3.  [removeTrailingSemi] is idempotent. *)
Theorem removeTrailingSemi_idempotent (q : string) :
  removeTrailingSemi (removeTrailingSemi q) = removeTrailingSemi q.
Proof.
  destruct (semis_decomposition q) as [[n ->] | (p & c & n & -> & Hl & Hc)].
  - now rewrite !removeTrailingSemi_semis.
  - rewrite (removeTrailingSemi_strips p c n Hl Hc).
    rewrite <- (append_nil_r p) at 1.
    apply (removeTrailingSemi_strips p c 0 Hl Hc).
Qed.

Lemma trimEnd_ends_in_other (s : string) (c : ascii) :
  last s = Some c -> isWhiteSpace c = false -> trimEnd s = s.
Proof.
  induction s as [|a s IH]; [discriminate|]. intros Hl Hc.
  destruct s as [|b s].
  - injection Hl as ->. simpl. now rewrite Hc.
  - change (trimEnd (String a (String b s))) with
      (match trimEnd (String b s) with
       | EmptyString =>
           if isWhiteSpace a then EmptyString else String a EmptyString
       | r => String a r
       end).
    rewrite IH by assumption. reflexivity.
Qed.

Lemma last_append_semis (p : string) (n : nat) :
  last (p +:+ semis (S n)) = Some ";"%char.
Proof.
  induction p as [|a p IH].
  - induction n as [|n IHn]; [reflexivity | exact IHn].
  - change (last (String a (p +:+ semis (S n))) = Some ";"%char).
    destruct (p +:+ semis (S n)) eqn:E; [|exact IH].
    destruct p; discriminate.
Qed.

(** X4.  A statement that starts and ends with a code unit that is no white
    space, the last one not a separator: with any number of separators
    appended, [formatQuery] yields the statement itself, a space, a line
    feed, [FORMAT] and the format. *)
Theorem formatQuery_ignores_trailing_separators
    (a c : ascii) (s format : string) (n : nat) :
  isWhiteSpace a = false ->
  last (String a s) = Some c ->
  isWhiteSpace c = false ->
  c <> ";"%char ->
  formatQuery (String a s +:+ semis n) format
  = String a s +:+ " " +:+ LF +:+ "FORMAT " +:+ format.
Proof.
  intros Ha Hl Hc Hsemi. unfold formatQuery.
  assert (trim (String a s +:+ semis n) = String a s +:+ semis n) as ->.
  { unfold trim.
    change (String a s +:+ semis n) with (String a (s +:+ semis n)).
    cbn [trimStart]. rewrite Ha.
    change (String a (s +:+ semis n)) with (String a s +:+ semis n).
    destruct n as [|n].
    - simpl semis. rewrite append_nil_r.
      now apply (trimEnd_ends_in_other _ c).
    - apply (trimEnd_ends_in_other _ ";"%char);
        [apply last_append_semis | reflexivity]. }
  now rewrite (removeTrailingSemi_strips (String a s) c n Hl Hsemi).
Qed.

Lemma formatQuery_ignores_trailing_separators_witness :
  formatQuery "SELECT 1;;;" "CSV" = "SELECT 1" +:+ " " +:+ LF +:+ "FORMAT CSV".
Proof.
  apply (formatQuery_ignores_trailing_separators "S" "1" "ELECT 1" "CSV" 3);
    [reflexivity | reflexivity | reflexivity | discriminate].
Defined.

(** ** Listeners of an exchange *)

(** X5.  Once the request has emitted ['close'] or ['error'], in whatever
    order the events came, the exchange has no listener left on the request
    and no idle timeout armed on the socket. *)
Theorem listeners_detached_after_close_or_error config params trace :
  existsb isCloseOrError trace = true ->
  let x := run config (start params) trace in
  requestListeners x = [false; false; false; false]
  /\ on_timeout (handlers x) = false.
Proof.
  intros H x.
  pose proof (wellFormed_run config _ trace (wellFormed_start params)) as [H1 H2].
  fold x in H1, H2.
  assert (on_close (handlers x) = false) as Hc.
  { apply detached_after; [apply wellFormed_start | now right]. }
  rewrite Hc in H1, H2. split; [exact H1|].
  destruct (on_timeout (handlers x)); [|reflexivity].
  destruct H2; [reflexivity | discriminate].
Qed.

Lemma listeners_detached_after_close_or_error_witness :
  let x :=
    run Sample.config (start (Sample.get (Some 7%nat) None))
      [EvSocket; EvResponse (Sample.ok None); EvClose] in
  requestListeners x = [false; false; false; false]
  /\ on_timeout (handlers x) = false.
Proof.
  apply (listeners_detached_after_close_or_error Sample.config
           (Sample.get (Some 7%nat) None)
           [EvSocket; EvResponse (Sample.ok None); EvClose]).
  reflexivity.
Defined.

(** X6.  The abort listener is on the abort signal from the start when a
    signal is given, and only the signal firing removes it: after any
    events, ['close'] included, it is still attached unless the signal has
    fired. *)
Theorem abort_listener_removed_only_by_abort config params trace :
  on_abort (handlers (run config (start params) trace))
  = bool_decide (is_Some (rq_abort_signal params))
    && negb (existsb isAbortEvent trace).
Proof.
  change (bool_decide (is_Some (rq_abort_signal params)))
    with (on_abort (handlers (start params))).
  generalize (start params) as x.
  induction trace as [|ev trace IH]; intros x; simpl.
  - now rewrite andb_true_r.
  - rewrite IH, abort_listener_step, negb_orb. now rewrite andb_assoc.
Qed.

(** ** Server errors and timeouts *)

Lemma passive_step config x ev :
  isPassiveEvent ev = true ->
  outcome (dispatch config x ev) = outcome x
  /\ reading (dispatch config x ev) = reading x.
Proof.
  intros H. destruct ev as [| | | | | | |[e|]]; try discriminate H;
    unfold_handlers; simpl;
    repeat match goal with
      | |- context [if ?b then _ else _] => destruct b
      end; split; reflexivity.
Qed.

Lemma passive_run config x trace :
  forallb isPassiveEvent trace = true ->
  outcome (run config x trace) = outcome x
  /\ reading (run config x trace) = reading x.
Proof.
  revert x. induction trace as [|ev trace IH]; intros x H; [split; reflexivity|].
  simpl in H. apply andb_true_iff in H as [Hev H]. simpl.
  destruct (IH (dispatch config x ev) H) as [-> ->].
  now apply passive_step.
Qed.

(** X7.  For every pending exchange that still listens for the response
    and has no body read under way: a response with a status outside
    200..299 and a supported encoding settles nothing by itself; through
    socket events, the end of the outbound body and ['close'] the promise
    stays pending, waiting for the text of the body (read through the
    gunzip stream when the response is gzip-encoded); when the text is
    there the promise is rejected with the parsed text, whatever follows. *)
Theorem server_error_rejects_with_parsed_body
    config x r s mid text rest :
  outcome x = Pending ->
  on_response (handlers x) = true ->
  reading x = [] ->
  decompressResponse r = inl s ->
  isSuccessfulResponse (statusCode r) = false ->
  forallb isPassiveEvent mid = true ->
  let x1 := run config x (EvResponse r :: mid) in
  outcome x1 = Pending
  /\ reading x1 = [s]
  /\ outcome (run config x1 (EvBody (Some text) :: rest))
     = Rejected (ParsedError text).
Proof.
  intros Hp Hl Hr Hd Hs Hmid x1.
  assert (outcome (dispatch config x (EvResponse r)) = Pending
          /\ reading (dispatch config x (EvResponse r)) = [s]) as [H1 H2].
  { destruct x as [o st so h rd pp d u]. simpl in Hp, Hl, Hr. subst o rd.
    cbn [dispatch handlers]. rewrite Hl. unfold onResponse.
    rewrite Hd, Hs. split; reflexivity. }
  destruct (passive_run config (dispatch config x (EvResponse r)) mid Hmid)
    as [Ho Hrd].
  change (run config (dispatch config x (EvResponse r)) mid) with x1 in Ho, Hrd.
  rewrite H1 in Ho. rewrite H2 in Hrd.
  split; [exact Ho|]. split; [exact Hrd|].
  apply decides; [reflexivity|].
  destruct (pending_verdicts config x1 Ho) as (_ & _ & _ & _ & _ & _ & Hb).
  apply Hb. rewrite Hrd. discriminate.
Qed.

Lemma server_error_rejects_with_parsed_body_witness :
  let x :=
    run Sample.config (start (Demo.post None)) [EvSocket; EvPipeline None] in
  let x1 := run Sample.config x [EvResponse Demo.serverError; EvClose] in
  outcome x1 = Pending
  /\ reading x1 = [Body Demo.serverError]
  /\ outcome (run Sample.config x1
                [EvBody (Some "Code: 62. Syntax error"); EvClose])
     = Rejected (ParsedError "Code: 62. Syntax error").
Proof.
  apply (server_error_rejects_with_parsed_body Sample.config
           (run Sample.config (start (Demo.post None))
              [EvSocket; EvPipeline None])
           Demo.serverError (Body Demo.serverError) [EvClose]
           "Code: 62. Syntax error" [EvClose]); reflexivity.
Defined.



(** ** The connection, operation by operation *)

Ltac run_operation :=
  unfold BaseHttpAdapter.ping, BaseHttpAdapter.query, BaseHttpAdapter.exec,
    BaseHttpAdapter.insert, BaseHttpAdapter.getQueryId, await, request,
    destroy, uuid_v4, ret;
  repeat match goal with
    | |- context [match cp_query_id ?p with _ => _ end] =>
        destruct (cp_query_id p)
    | |- context [if String.eqb ?a ?b then _ else _] =>
        destruct (String.eqb a b)
    end;
  cbn beta iota zeta delta [fst snd];
  repeat match goal with
    | |- context [match outcome ?x with _ => _ end] => destruct (outcome x)
    end;
  cbn beta iota zeta delta
    [fst snd network uuids uuid_calls sent destroyedStreams].

(** X9.  Every connection operation performs exactly one exchange, whatever
    its outcome: it takes the events of one exchange and sends one request;
    [uuid.v4()] is called once when no non-empty [query_id] is supplied and
    not at all otherwise, and never by [ping]. *)
Theorem one_exchange_per_operation config params values w :
  let fresh :=
    match cp_query_id params with
    | Some id => if String.eqb id "" then 1%nat else 0%nat
    | None => 1%nat
    end in
  let exchanged (w' : world) (n : nat) :=
    network w' = tl (network w)
    /\ length (sent w') = S (length (sent w))
    /\ uuid_calls w' = (uuid_calls w + n)%nat in
  exchanged (snd (BaseHttpAdapter.ping config w)) 0%nat
  /\ exchanged (snd (BaseHttpAdapter.query config params w)) fresh
  /\ exchanged (snd (BaseHttpAdapter.exec config params w)) fresh
  /\ exchanged (snd (BaseHttpAdapter.insert config values params w)) fresh.
Proof.
  intros fresh exchanged. unfold exchanged, fresh.
  repeat split; run_operation;
    rewrite ?length_app; simpl; try reflexivity; lia.
Qed.

(** X10.  [query] and [exec] hand the response stream to the caller and
    never destroy it; [insert] and [ping] destroy the response stream of a
    successful exchange, and destroy nothing when the exchange fails. *)
Theorem response_stream_ownership config params values w :
  destroyedStreams (snd (BaseHttpAdapter.query config params w))
  = destroyedStreams w
  /\ destroyedStreams (snd (BaseHttpAdapter.exec config params w))
     = destroyedStreams w
  /\ (let '(r, w') := BaseHttpAdapter.insert config values params w in
      exists rq,
        list.last (sent w') = Some rq
        /\ destroyedStreams w'
           = match outcome (run config (start rq) (hd [] (network w))) with
             | Fulfilled s => (destroyedStreams w ++ [s])%list
             | _ => destroyedStreams w
             end)
  /\ (let '(r, w') := BaseHttpAdapter.ping config w in
      destroyedStreams w'
      = match outcome (run config (start BaseHttpAdapter.pingRequest)
                         (hd [] (network w))) with
        | Fulfilled s => (destroyedStreams w ++ [s])%list
        | _ => destroyedStreams w
        end).
Proof.
  split; [|split; [|split]].
  - run_operation; reflexivity.
  - run_operation; reflexivity.
  - unfold BaseHttpAdapter.insert, BaseHttpAdapter.getQueryId, await, request,
      destroy, uuid_v4, ret.
    destruct (cp_query_id params) as [id|]; [destruct (String.eqb id "")|];
      cbn beta iota zeta delta [fst snd network sent];
      match goal with
      | |- context [outcome (run config (start ?rq) ?t)] =>
          destruct (outcome (run config (start rq) t)) eqn:E;
          exists rq; cbn beta iota zeta delta [sent destroyedStreams];
          rewrite last_snoc, ?E; split; reflexivity
      end.
  - unfold BaseHttpAdapter.ping, await, request, destroy, ret.
    destruct (outcome _); reflexivity.
Qed.

(** ** Compression *)

Lemma withHttpSettings_lookup settings compression key :
  withHttpSettings settings compression !! key
  = match default ∅ settings !! key with
    | Some v => Some v
    | None =>
        if compression && bool_decide (key = "enable_http_compression")
        then Some (SNum 1)
        else None
    end.
Proof.
  unfold withHttpSettings. rewrite lookup_union.
  destruct (default ∅ settings !! key) as [v|] eqn:E; simpl.
  - destruct compression; simpl.
    + destruct (({[ "enable_http_compression" := SNum 1 ]}
                 : gmap string SettingValue) !! key); reflexivity.
    + now rewrite lookup_empty.
  - destruct compression; simpl; [|now rewrite lookup_empty].
    destruct (decide (key = "enable_http_compression")) as [->|Hne].
    + rewrite lookup_singleton_eq, bool_decide_eq_true_2; reflexivity.
    + rewrite lookup_singleton_ne by congruence.
      rewrite bool_decide_eq_false_2; [reflexivity | exact Hne].
Qed.

(** X11.  The settings [query] sends are the caller's settings, with
    [enable_http_compression = 1] added when the connection decompresses
    responses and the caller has not set that key; the caller's value always
    wins.  The request asks for a compressed response exactly when the
    setting that is sent is 1.  [exec] sends the caller's settings as they
    are and never asks for a compressed response. *)
Theorem query_compression_follows_settings config params w :
  let key := "enable_http_compression" in
  let own := default ∅ (cp_clickhouse_settings params) in
  let merged :=
    withHttpSettings (cp_clickhouse_settings params)
      (cfg_decompress_response (cfg_compression config)) in
  (forall k, k <> key -> merged !! k = own !! k)
  /\ merged !! key
     = match own !! key with
       | Some v => Some v
       | None =>
           if cfg_decompress_response (cfg_compression config)
           then Some (SNum 1) else None
       end
  /\ (exists rq,
        list.last (sent (snd (BaseHttpAdapter.query config params w))) = Some rq
        /\ (searchParams (rq_url rq) ≫= sp_clickhouse_settings) = Some merged
        /\ rq_decompress_response rq
           = Some (bool_decide (merged !! key = Some (SNum 1))))
  /\ (exists rq,
        list.last (sent (snd (BaseHttpAdapter.exec config params w))) = Some rq
        /\ (searchParams (rq_url rq) ≫= sp_clickhouse_settings)
           = cp_clickhouse_settings params
        /\ rq_decompress_response rq = None).
Proof.
  intros key own merged. split; [|split; [|split]].
  - intros k Hk. unfold merged. rewrite withHttpSettings_lookup. fold own.
    destruct (own !! k); [reflexivity|].
    rewrite bool_decide_eq_false_2 by exact Hk. now rewrite andb_false_r.
  - unfold merged. rewrite withHttpSettings_lookup. fold own.
    destruct (own !! key); [reflexivity|].
    rewrite bool_decide_eq_true_2 by reflexivity. now rewrite andb_true_r.
  - unfold BaseHttpAdapter.query, BaseHttpAdapter.getQueryId, await, request,
      uuid_v4, ret.
    destruct (cp_query_id params) as [id|]; [destruct (String.eqb id "")|];
      cbn beta iota zeta delta [fst snd network sent];
      match goal with
      | |- context [outcome (run config (start ?rq) ?t)] =>
          destruct (outcome (run config (start rq) t));
          exists rq; cbn beta iota zeta delta [snd sent];
          rewrite last_snoc; repeat split
      end.
  - unfold BaseHttpAdapter.exec, BaseHttpAdapter.getQueryId, await, request,
      uuid_v4, ret.
    destruct (cp_query_id params) as [id|]; [destruct (String.eqb id "")|];
      cbn beta iota zeta delta [fst snd network sent];
      match goal with
      | |- context [outcome (run config (start ?rq) ?t)] =>
          destruct (outcome (run config (start rq) t));
          exists rq; cbn beta iota zeta delta [snd sent];
          rewrite last_snoc; repeat split
      end.
Qed.

(** X12.  The headers of a request are exactly: [Authorization] with the
    encoded credentials and [User-Agent], always; [Accept-Encoding: gzip]
    when [decompress_response] is set; [Content-Encoding: gzip] when
    [compress_request] is set; and nothing else. *)
Theorem getHeaders_exact base64 getUserAgent application_id username password
    params name :
  getHeaders
    (buildDefaultHeaders base64 getUserAgent application_id username password)
    params !! name
  = if bool_decide (name = "Content-Encoding")
    then (if truthy (rq_compress_request params) then Some "gzip" else None)
    else if bool_decide (name = "Accept-Encoding")
    then (if truthy (rq_decompress_response params) then Some "gzip" else None)
    else if bool_decide (name = "Authorization")
    then Some ("Basic " +:+ base64 (username +:+ ":" +:+ password))
    else if bool_decide (name = "User-Agent")
    then Some (getUserAgent application_id)
    else None.
Proof.
  unfold getHeaders, buildDefaultHeaders.
  repeat case_bool_decide; subst;
    destruct (truthy (rq_compress_request params));
    destruct (truthy (rq_decompress_response params));
    repeat (rewrite lookup_union
            || rewrite lookup_empty
            || rewrite lookup_insert
            || rewrite lookup_singleton
            || case_decide || simplify_eq || simpl);
    try reflexivity; try congruence.
Qed.

(** ** The client over a connection *)

(** X13.  [insert] calls the connection at most once, and exactly when the
    payload is not an empty array and the values pass validation.  When
    validation fails it rejects with the validator's error.  A fulfilled
    result has [executed = true] exactly when the connection was called,
    and an empty [query_id] when it was not. *)
Theorem insert_calls_connection_iff_valid_and_not_empty_array
    {W Stream T PingResult ResultSet : Type}
    (this : ClickHouseClient W Stream T PingResult ResultSet)
    (params : InsertParams Stream T) log w :
  let format :=
    match i_format params with
    | Some f => if String.eqb f "" then "JSONCompactEachRow" else f
    | None => "JSONCompactEachRow"
    end in
  let checked :=
    validateInsertValues (valuesEncoder this) (i_values params) format in
  let called :=
    negb (Client.isEmptyArray (i_values params))
    && bool_decide (checked = None) in
  let '(r, (log', _)) := Client.insert (traced this) params (log, w) in
  length log' = (length log + if called then 1 else 0)%nat
  /\ (forall err,
        Client.isEmptyArray (i_values params) = false ->
        checked = Some err -> r = Rejected err)
  /\ (forall result,
        r = Fulfilled result ->
        executed result = called
        /\ (executed result = false -> ins_query_id result = "")).
Proof.
  intros format checked called. unfold called, checked, Client.insert.
  destruct (Client.isEmptyArray (i_values params)); simpl.
  - repeat split; try lia; intros; try discriminate;
      repeat match goal with
        | H : Fulfilled _ = Fulfilled _ |- _ => inversion H; subst; clear H
        end; reflexivity.
  - change (valuesEncoder (traced this)) with (valuesEncoder this).
    fold format.
    destruct (validateInsertValues (valuesEncoder this) (i_values params) format)
      as [err|]; simpl.
    + repeat split; try lia; intros; try discriminate; congruence.
    + unfold await, traced. simpl connection.
      unfold recording, conn_insert at 1, logged. simpl.
      destruct (conn_insert _ _ _ w) as [[|res|e] w2]; simpl;
        rewrite length_app; simpl; repeat split; try lia; intros;
        try discriminate;
        repeat match goal with
          | H : Fulfilled _ = Fulfilled _ |- _ => inversion H; subst; clear H
          end; simpl in *; try reflexivity; try discriminate.
Qed.

(** ** The client over the HTTP adapter *)

(** X14.  [query] through the HTTP adapter sends one POST to ["/"]: the
    body is the normalised statement with its FORMAT clause, the URL carries
    the database, the merged settings (with the compression setting of the
    connection), the call's bound parameters, the client's session id and
    the query id; the call's abort signal is the request's.  The result is
    the result set made from the response stream, the format and the query
    id when the exchange succeeds, and the exchange's failure otherwise. *)
Theorem query_over_http {T ResultSet : Type} config settings session
    (mk : readable -> string -> string -> ResultSet)
    (enc : ValuesEncoder readable T) close (params : QueryParams) w :
  let base := q_base params in
  let format := default "JSON" (q_format params) in
  let id :=
    match query_id base with
    | Some i => if String.eqb i "" then uuids w (uuid_calls w) else i
    | None => uuids w (uuid_calls w)
    end in
  let merged :=
    withHttpSettings
      (Some (default ∅ (clickhouse_settings base) ∪ settings))
      (cfg_decompress_response (cfg_compression config)) in
  let rq :=
    {| rq_method := POST;
       rq_url :=
         {| pathname := "/";
            searchParams :=
              Some {| sp_database := cfg_database config;
                      sp_clickhouse_settings := Some merged;
                      sp_query_params := query_params base;
                      sp_query := None;
                      sp_session_id := session;
                      sp_query_id := id |} |};
       rq_body := Some (inl (formatQuery (q_query params) format));
       rq_abort_signal := abort_signal base;
       rq_decompress_response :=
         Some (bool_decide
                 (merged !! "enable_http_compression" = Some (SNum 1)));
       rq_compress_request := None |} in
  let '(r, w') :=
    Client.query (httpClient config settings session mk enc close) params w in
  sent w' = (sent w ++ [rq])%list
  /\ r = match outcome (run config (start rq) (hd [] (network w))) with
         | Fulfilled s => Fulfilled (mk s format id)
         | Rejected e => Rejected e
         | Pending => Pending
         end.
Proof.
  intros base format id merged rq. unfold rq, merged, id, format, base.
  unfold Client.query, httpClient, await, ret. simpl connection.
  unfold conn_query, BaseHttpAdapter.connection, BaseHttpAdapter.query,
    BaseHttpAdapter.getQueryId, await, request, uuid_v4, ret.
  unfold Client.withClientQueryParams. simpl.
  destruct (query_id (q_base params)) as [i|]; [destruct (String.eqb i "")|];
    simpl;
    match goal with
    | |- context [outcome (run config (start ?rq) ?t)] =>
        destruct (outcome (run config (start rq) t))
    end; split; reflexivity.
Qed.

(** X15.  [insert] through the HTTP adapter, for values that are not an
    empty array and pass validation, sends one POST to ["/"]: the body is
    the encoded values, the INSERT statement travels in the URL with the
    database, the merged settings, the session id and the query id, and the
    request is compressed when the connection says so.  The result is
    [executed: true] with the query id when the exchange succeeds, and the
    exchange's failure otherwise. *)
Theorem insert_over_http {T ResultSet : Type} config settings session
    (mk : readable -> string -> string -> ResultSet)
    (enc : ValuesEncoder readable T) close
    (params : InsertParams readable T) w :
  let base := i_base params in
  let format :=
    match i_format params with
    | Some f => if String.eqb f "" then "JSONCompactEachRow" else f
    | None => "JSONCompactEachRow"
    end in
  let id :=
    match query_id base with
    | Some i => if String.eqb i "" then uuids w (uuid_calls w) else i
    | None => uuids w (uuid_calls w)
    end in
  let rq :=
    {| rq_method := POST;
       rq_url :=
         {| pathname := "/";
            searchParams :=
              Some {| sp_database := cfg_database config;
                      sp_clickhouse_settings :=
                        Some (default ∅ (clickhouse_settings base) ∪ settings);
                      sp_query_params := query_params base;
                      sp_query :=
                        Some (getInsertQuery (i_table params)
                                (i_columns params) format);
                      sp_session_id := session;
                      sp_query_id := id |} |};
       rq_body := Some (encodeValues enc (i_values params) format);
       rq_abort_signal := abort_signal base;
       rq_decompress_response := None;
       rq_compress_request :=
         Some (cfg_compress_request (cfg_compression config)) |} in
  Client.isEmptyArray (i_values params) = false ->
  validateInsertValues enc (i_values params) format = None ->
  let '(r, w') :=
    Client.insert (httpClient config settings session mk enc close) params w in
  sent w' = (sent w ++ [rq])%list
  /\ r = match outcome (run config (start rq) (hd [] (network w))) with
         | Fulfilled _ =>
             Fulfilled {| executed := true; ins_query_id := id;
                          ins_summary := None |}
         | Rejected e => Rejected e
         | Pending => Pending
         end.
Proof.
  intros base format id rq Hne Hok. unfold rq, id, base.
  unfold Client.insert. rewrite Hne.
  change (valuesEncoder (httpClient config settings session mk enc close))
    with enc.
  fold format. rewrite Hok.
  unfold httpClient, await, ret. simpl connection.
  unfold conn_insert, BaseHttpAdapter.connection, BaseHttpAdapter.insert,
    BaseHttpAdapter.getQueryId, await, request, destroy, uuid_v4, ret.
  unfold Client.withClientQueryParams. simpl.
  destruct (query_id (i_base params)) as [i|]; [destruct (String.eqb i "")|];
    simpl;
    match goal with
    | |- context [outcome (run config (start ?rq) ?t)] =>
        destruct (outcome (run config (start rq) t))
    end; split; reflexivity.
Qed.

Lemma insert_over_http_witness :
  let '(r, w') :=
    Client.insert Demo.client (Demo.rows (ValuesArray [1%nat]))
      (Sample.world [[EvSocket; EvResponse (Sample.ok None); EvClose]]) in
  (rq_body <$> sent w') = [Some (inl "[1]")]
  /\ r = Fulfilled {| executed := true;
                      ins_query_id := "6f1c1d0e-3b7a-4c58-9a52-0d6c6a1f2b11";
                      ins_summary := None |}.
Proof.
  pose proof
    (insert_over_http Sample.config ∅ None (fun s f id => (s, f, id))
       Demo.encoder (fun s => destroy s) (Demo.rows (ValuesArray [1%nat]))
       (Sample.world [[EvSocket; EvResponse (Sample.ok None); EvClose]])
       eq_refl eq_refl) as H.
  cbv zeta in H. fold Demo.client in H.
  destruct (Client.insert Demo.client _ _) as [r w'].
  destruct H as [Hs Hr]. split; [now rewrite Hs | exact Hr].
Defined.

(** X16.  [command] through the HTTP adapter sends, as the body, the
    trimmed statement without its trailing separators when something else
    stands before them, and the trimmed statement as it is when it consists
    of separators only; it adds no FORMAT clause and never asks for a
    compressed response.  When the exchange fails, [command] fails with the
    same failure and the stream closer is not run; when it succeeds, the
    stream closer is run on the response stream and the result carries the
    query id. *)
Theorem command_over_http {T ResultSet : Type} config settings session
    (mk : readable -> string -> string -> ResultSet)
    (enc : ValuesEncoder readable T) close (params : ExecParams) w :
  let base := e_base params in
  let id :=
    match query_id base with
    | Some i => if String.eqb i "" then uuids w (uuid_calls w) else i
    | None => uuids w (uuid_calls w)
    end in
  exists statement,
    (forall m, trim (e_query params) = semis m -> statement = semis m)
    /\ (forall p c n,
          trim (e_query params) = p +:+ semis n ->
          last p = Some c -> c <> ";"%char ->
          statement = p)
    /\ ((exists m, trim (e_query params) = semis m)
        \/ (exists p c n,
              trim (e_query params) = p +:+ semis n
              /\ last p = Some c /\ c <> ";"%char))
    /\ let rq :=
         {| rq_method := POST;
            rq_url :=
              {| pathname := "/";
                 searchParams :=
                   Some {| sp_database := cfg_database config;
                           sp_clickhouse_settings :=
                             Some (default ∅ (clickhouse_settings base)
                                   ∪ settings);
                           sp_query_params := query_params base;
                           sp_query := None;
                           sp_session_id := session;
                           sp_query_id := id |} |};
            rq_body := Some (inl statement);
            rq_abort_signal := abort_signal base;
            rq_decompress_response := None;
            rq_compress_request := None |} in
       let this := httpClient config settings session mk enc close in
       let w1 := snd (Client.exec this params w) in
       sent w1 = (sent w ++ [rq])%list
       /\ Client.command this params w
          = match outcome (run config (start rq) (hd [] (network w))) with
            | Fulfilled s =>
                match close s w1 with
                | (Fulfilled _, w2) =>
                    (Fulfilled {| cmd_query_id := id; cmd_summary := None |},
                     w2)
                | (Rejected e, w2) => (Rejected e, w2)
                | (Pending, w2) => (Pending, w2)
                end
            | Rejected e => (Rejected e, w1)
            | Pending => (Pending, w1)
            end.
Proof.
  intros base id. exists (removeTrailingSemi (trim (e_query params))).
  split; [|split; [|split]].
  - intros m Hm. now rewrite Hm, removeTrailingSemi_semis.
  - intros p c n Hs Hl Hc. now rewrite Hs, (removeTrailingSemi_strips p c n Hl Hc).
  - destruct (semis_decomposition (trim (e_query params)))
      as [[m Hm] | (p & c & n & Hs & Hl & Hc)].
    + left. now exists m.
    + right. exists p, c, n. auto.
  - intros rq this w1. unfold w1, this, rq, id, base.
    unfold Client.command, Client.exec, httpClient, await, ret.
    simpl connection. simpl closeStream.
    unfold conn_exec, BaseHttpAdapter.connection, BaseHttpAdapter.exec,
      BaseHttpAdapter.getQueryId, await, request, uuid_v4, ret.
    unfold Client.withClientQueryParams. simpl.
    destruct (query_id (e_base params)) as [i|]; [destruct (String.eqb i "")|];
      simpl;
      match goal with
      | |- context [outcome (run config (start ?rq) ?t)] =>
          destruct (outcome (run config (start rq) t))
      end; simpl; split; try reflexivity;
      match goal with
      | |- context [close ?s ?w] => destruct (close s w) as [[| |] ?]
      end; reflexivity.
Qed.

(** ** The table layer *)


Lemma json_from (acc yielded : list Table.JsValue) :
  fold_left
    (fun result value =>
       match value with
       | Table.JsArray items => (result ++ items)%list
       | _ => (result ++ [value])%list
       end)
    yielded acc
  = (acc ++ Table.json yielded)%list.
Proof.
  unfold Table.json. revert acc.
  induction yielded as [|v l IH]; intros acc; simpl.
  - now rewrite app_nil_r.
  - destruct v as [items|i]; rewrite IH; symmetry; rewrite IH;
      simpl; now rewrite <- app_assoc.
Qed.

(** X18.  The [json] function of a select result flattens exactly one level
    and keeps the order: yielded arrays are concatenated (arrays inside them
    stay as they are), other values are kept, and the result of two runs of
    values is the concatenation of the results. *)
Theorem select_json_flattens_one_level (first second : list Table.JsValue)
    (chunks : list (list Table.JsValue)) (ids : list nat) :
  Table.json (first ++ second) = (Table.json first ++ Table.json second)%list
  /\ Table.json (Table.JsArray <$> chunks) = concat chunks
  /\ Table.json (Table.JsOther <$> ids) = Table.JsOther <$> ids.
Proof.
  split; [|split].
  - unfold Table.json at 1. rewrite fold_left_app.
    fold (Table.json first). now rewrite json_from.
  - induction chunks as [|c cs IH]; [reflexivity|].
    rewrite fmap_cons. unfold Table.json at 1. cbn [fold_left].
    rewrite json_from, IH. reflexivity.
  - induction ids as [|i rest IH]; [reflexivity|].
    rewrite !fmap_cons. unfold Table.json at 1. cbn [fold_left].
    rewrite json_from, IH. reflexivity.
Qed.
